(** * redux-api-resources: the resource reducer of [src/reducer.ts]

    A shallow embedding of the reducer (action router, status tracker,
    entity merger, changeset manager) and the properties of its
    specification.

    Modelling conventions.
    - JavaScript values are JSON-like data: [undefined], [null], booleans,
      numbers, strings, arrays and plain objects.  Numbers are the integers
      (the safe integers, of magnitude below 2^53, whose property key is
      their decimal numeral); [NaN] and fractions are outside the model.
      Strings are ASCII.
    - An array or object value carries the reference that [===] compares.
    - A plain object is the finite map of its own properties, and a slice
      is made of such objects, each with the prototype it was created
      with.  An assignment [o[k] = v] under the key [__proto__] goes to the
      accessor of [Object.prototype] unless the object owns that key: it
      changes the prototype and adds no own property ([assign]).  An
      object literal with a computed key, and an object spread, define own
      properties under every key.
    - The prototype itself is not part of the state.  A read [o[k]] is
      modelled as the read of an own property; what it finds through the
      prototype when the object does not own [k] (a member of
      [Object.prototype], listed in [object_prototype_members], or a
      field of a prototype installed by an assignment to [__proto__]) is
      outside the model.  The properties that say what such a read finds
      exclude these keys in their hypotheses.
    - The conversion of a value to a property key ([to_key]) is given for
      every value; JavaScript's conversion of an object or an array runs
      its [toString], which fails when a field of the data shadows it.
      The properties that say the reducer returns on identifiers, fields
      or forms of any kind are stated for primitive ones.
    - The reducer can raise a [TypeError] and can call [console.warn]: its
      results live in a writer-over-error monad [M] that records both.
    - The hooks of the options ([onUpdate], [changesetReducer],
      [entityReducer], [errorReducer]) are total pure functions, and
      [changesetReducer] returns an object: the buffers of [changeset] are
      objects, as the data model has them. *)

From Stdlib Require Import Ascii.
From stdpp Require Import gmap strings list fin_maps pretty.

#[local] Set Warnings "-register-all,-clear-no-such-hyp".
#[local] Open Scope string_scope.
#[local] Open Scope list_scope.

(** ** JavaScript values *)

Inductive value : Type :=
  | VUndef
  | VNull
  | VBool (b : bool)
  | VNum (n : Z)
  | VStr (s : string)
  | VArr (ref : nat) (xs : list value)
  | VObj (ref : nat) (fields : gmap string value).

(** [!v]'s negation: the values an [if (v)] accepts. *)
Definition truthy (v : value) : bool :=
  match v with
  | VUndef | VNull => false
  | VBool b => b
  | VNum n => negb (n =? 0)%Z
  | VStr s => negb (String.eqb s "")
  | VArr _ _ | VObj _ _ => true
  end.

(** [a === b]: primitives by value, arrays and objects by reference. *)
Definition strict_eq (a b : value) : bool :=
  match a, b with
  | VUndef, VUndef | VNull, VNull => true
  | VBool x, VBool y => Bool.eqb x y
  | VNum x, VNum y => (x =? y)%Z
  | VStr x, VStr y => String.eqb x y
  | VArr r _, VArr r' _ => (r =? r')%nat
  | VObj r _, VObj r' _ => (r =? r')%nat
  | _, _ => false
  end.

(** [ToPropertyKey]: the string under which [o[v]] reads and writes. *)
Fixpoint to_key (v : value) : string :=
  match v with
  | VUndef => "undefined"
  | VNull => "null"
  | VBool true => "true"
  | VBool false => "false"
  | VNum n => pretty n
  | VStr s => s
  | VArr _ xs =>
      (fix join (l : list value) : string :=
         match l with
         | [] => ""
         | x :: rest =>
             let item := match x with VUndef | VNull => "" | _ => to_key x end in
             match rest with
             | [] => item
             | _ :: _ => item +:+ "," +:+ join rest
             end
         end) xs
  | VObj _ _ => "[object Object]"
  end.

(** [typeof v === 'number' || typeof v === 'string'] *)
Definition is_number_or_string (v : value) : bool :=
  match v with VNum _ | VStr _ => true | _ => false end.

(** [Array.isArray(v) ? v : [v]] *)
Definition to_array (v : value) : list value :=
  match v with VArr _ xs => xs | _ => [v] end.

(** [xs.indexOf(v)], [None] standing for [-1]. *)
Fixpoint indexOf (v : value) (xs : list value) : option nat :=
  match xs with
  | [] => None
  | x :: rest => if strict_eq x v then Some 0 else S <$> indexOf v rest
  end.

(** [xs.splice(i, 1)] for an index inside the array. *)
Fixpoint splice1 (i : nat) (xs : list value) : list value :=
  match xs, i with
  | [], _ => []
  | _ :: rest, 0 => rest
  | x :: rest, S j => x :: splice1 j rest
  end.

(** The array index a property key denotes, when it is one below [len]. *)
Definition index_of_key (k : string) (len : nat) : option nat :=
  find (λ i, String.eqb (pretty i) k) (seq 0 len).

Definition chars (s : string) : list value :=
  (λ c, VStr (String c "")) <$> String.list_ascii_of_string s.

(** The own properties an object spread [{...v}] copies. *)
Definition indexed (xs : list value) : gmap string value :=
  list_to_map (imap (λ i x, (pretty i, x)) xs).

Definition spread (v : value) : gmap string value :=
  match v with
  | VObj _ m => m
  | VArr _ xs => indexed xs
  | VStr s => indexed (chars s)
  | _ => ∅
  end.

(** ** Plain objects *)

(** The members every plain object inherits from [Object.prototype]. *)
Definition object_prototype_members : list string :=
  ["__proto__"; "constructor"; "hasOwnProperty"; "isPrototypeOf";
   "propertyIsEnumerable"; "toLocaleString"; "toString"; "valueOf";
   "__defineGetter__"; "__defineSetter__"; "__lookupGetter__"; "__lookupSetter__"].

(** [o[k] = v] on the own properties of a plain object [o].  Under the key
    [__proto__], when [o] does not own it, the assignment reaches the
    setter of [Object.prototype]: the prototype changes and no own property
    appears.  Every other key, the other inherited members included, gets
    an own property. *)
Definition assign {A} (k : string) (v : A) (own : gmap string A) : gmap string A :=
  if String.eqb k "__proto__" && negb (bool_decide (is_Some (own !! k)))
  then own
  else <[k := v]> own.

(** ** Strings: [toUpperCase], [toLowerCase], [split('/')] *)

Definition upper_ascii (c : ascii) : ascii :=
  let n := nat_of_ascii c in
  if (97 <=? n)%nat && (n <=? 122)%nat then ascii_of_nat (n - 32) else c.

Definition lower_ascii (c : ascii) : ascii :=
  let n := nat_of_ascii c in
  if (65 <=? n)%nat && (n <=? 90)%nat then ascii_of_nat (n + 32) else c.

Fixpoint map_string (f : ascii → ascii) (s : string) : string :=
  match s with
  | EmptyString => EmptyString
  | String c rest => String (f c) (map_string f rest)
  end.

Definition toUpperCase : string → string := map_string upper_ascii.
Definition toLowerCase : string → string := map_string lower_ascii.

(** [s.split('/')]: never empty, [''.split('/')] is [['']]. *)
Fixpoint split (s : string) : list string :=
  match s with
  | EmptyString => [EmptyString]
  | String c rest =>
      if Ascii.eqb c "/"%char then EmptyString :: split rest
      else match split rest with
           | seg :: segs => String c seg :: segs
           | [] => [String c EmptyString]
           end
  end.

(** ** Exceptions and diagnostics *)

Inductive exn : Type :=
  | TypeError
  | Error (msg : string).

(** A run yields the [console.warn] messages it emitted and either the
    exception that ended it or its value. *)
Definition M (A : Type) : Type := list string * (exn + A).

#[global] Instance M_ret : MRet M := λ A a, ([], inr a).
#[global] Instance M_bind : MBind M := λ A B f m,
  match m with
  | (w, inl e) => (w, inl e)
  | (w, inr a) => let '(w', r) := f a in (w ++ w', r)
  end.

Definition throw {A} (e : exn) : M A := ([], inl e).
Definition warn (msg : string) : M unit := ([msg], inr tt).

(** [xs.forEach(x => acc = f(x, acc))] *)
Fixpoint forEach {A B} (f : A → B → M B) (xs : list A) (acc : B) : M B :=
  match xs with
  | [] => mret acc
  | x :: rest => acc' ← f x acc; forEach f rest acc'
  end.

(** [v[k]] for a string key: a [TypeError] on [null] and [undefined]. *)
Definition get_prop (v : value) (k : string) : M value :=
  match v with
  | VUndef | VNull => throw TypeError
  | VBool _ | VNum _ => mret VUndef
  | VStr s =>
      if String.eqb k "length" then mret (VNum (Z.of_nat (String.length s)))
      else mret (default VUndef (i ← index_of_key k (String.length s); chars s !! i))
  | VArr _ xs =>
      if String.eqb k "length" then mret (VNum (Z.of_nat (length xs)))
      else mret (default VUndef (i ← index_of_key k (length xs); xs !! i))
  | VObj _ m => mret (default VUndef (m !! k))
  end.

(** ** Data model *)

(** Modelled from the spec: the interface [Status] of [./types], which is
    not among the sources; the fields are those of the object literals of
    [reducer.ts]. *)
Module Status.
Record t : Type := mk {
  pending : option bool;  (* [null], [true] or [false] *)
  id : option value;      (* only [defaultStatus] writes the field *)
  success : option bool;  (* [null], [true] or [false] *)
  payload : value;
  busy : bool;
}.
End Status.

(** Modelled from the spec: the interface [Resource<T>] of [./types], with
    the entities as values and objects as finite maps. *)
Record Resource : Type := mkResource {
  results : list value;
  entities : gmap string value;
  meta : gmap string value;
  changeset : gmap string (gmap string value);
  status : gmap string Status.t;
}.

(** Modelled from the spec: the interface [Action<T>] of [./types]. *)
Module Action.
Record t : Type := mk {
  type : string;
  payload : value;  (* [VUndef] when the action has none *)
  meta : value;     (* [VUndef] when the action has none *)
}.
End Action.

(** Modelled from the spec: the interface [ResourceReducerOptions<T>] of
    [./types], the options a caller passes; each field may be left out. *)
Record ResourceReducerOptions : Type := mkPartial {
  opt_idAttribute : option string;
  opt_onUpdate : option (value → value → value);
  opt_changesetReducer : option (option (gmap string value) → value → gmap string value);
  opt_entityReducer : option (string → value → value → value);
  opt_errorReducer : option (string → value → value → value);
}.

(** The options after the defaults are filled in. *)
Record Options : Type := mkOptions {
  idAttribute : string;
  onUpdate : value → value → value;
  changesetReducer : option (gmap string value) → value → gmap string value;
  entityReducer : string → value → value → value;
  errorReducer : string → value → value → value;
}.

Definition defaultOptions : Options := {|
  idAttribute := "id";
  onUpdate := λ prev next, next;
  changesetReducer := λ changeset changes, spread changes ∪ default ∅ changeset;
  entityReducer := λ action_type payload meta, payload;
  errorReducer := λ action_type payload meta, payload;
|}.

(** [{ ...defaults, ...options }] *)
Definition with_defaults (options : ResourceReducerOptions) : Options := {|
  idAttribute := default (idAttribute defaultOptions) (opt_idAttribute options);
  onUpdate := default (onUpdate defaultOptions) (opt_onUpdate options);
  changesetReducer := default (changesetReducer defaultOptions) (opt_changesetReducer options);
  entityReducer := default (entityReducer defaultOptions) (opt_entityReducer options);
  errorReducer := default (errorReducer defaultOptions) (opt_errorReducer options);
|}.

Definition no_options : ResourceReducerOptions := mkPartial None None None None None.

Definition defaultStatus : Status.t := {|
  Status.pending := None;
  Status.id := Some VNull;
  Status.success := None;
  Status.payload := VNull;
  Status.busy := false;
|}.

Definition createStatus : gmap string Status.t :=
  foldl (λ acc key, <[key := defaultStatus]> acc) ∅ ["fetch"; "create"; "update"; "destroy"].

Definition initialResourceState : Resource := {|
  results := [];
  entities := ∅;
  meta := ∅;
  changeset := ∅;
  status := createStatus;
|}.

Definition set_status (f : gmap string Status.t → gmap string Status.t) (s : Resource) : Resource :=
  mkResource (results s) (entities s) (meta s) (changeset s) (f (status s)).

Definition set_meta (m : gmap string value) (s : Resource) : Resource :=
  mkResource (results s) (entities s) m (changeset s) (status s).

Definition set_changeset (c : gmap string (gmap string value)) (s : Resource) : Resource :=
  mkResource (results s) (entities s) (meta s) c (status s).

Definition set_store (re : list value * gmap string value) (s : Resource) : Resource :=
  mkResource re.1 re.2 (meta s) (changeset s) (status s).

(** ** The reducer *)

(** [seg === lit] for a segment of the action type that may be missing. *)
Definition seg_is (seg : option string) (lit : string) : bool :=
  match seg with
  | Some s => String.eqb s lit
  | None => false
  end.

(** [crudType.toLowerCase()] *)
Definition lower (crudType : option string) : M string :=
  match crudType with
  | Some d => mret (toLowerCase d)
  | None => throw TypeError
  end.

Definition handleClear (crudType : option string) (action : Action.t) (state : Resource)
    (options : Options) : M Resource :=
  key ← lower crudType;
  mret (set_status (assign key defaultStatus) state).

Definition handleStart (crudType : option string) (action : Action.t) (state : Resource)
    (options : Options) : M Resource :=
  key ← lower crudType;
  mret (set_status (assign key {|
    Status.pending := Some true;
    Status.id := None;
    Status.success := None;
    Status.payload := Action.payload action;
    Status.busy := true |}) state).

Definition handleFailure (crudType : option string) (action : Action.t) (state : Resource)
    (options : Options) : M Resource :=
  key ← lower crudType;
  mret (set_status (assign key {|
    Status.pending := Some true;
    Status.id := None;
    Status.success := Some false;
    Status.payload :=
      if truthy (Action.payload action)
      then errorReducer options (default "" crudType) (Action.payload action) (Action.meta action)
      else VNull;
    Status.busy := false |}) state).

Definition missing_id_warning (options : Options) : string :=
  "Missing '" +:+ idAttribute options +:+ "' unable to add data to store".

(** The body of the [forEach] of [updateInResource], on the local
    [results] and [entities].  [entities] is a copy made by an object
    spread: the entity is written with [assign], and the previous entity is
    the one the object owns under the key, [undefined] when it owns none
    (what the read finds through the prototype in that case is outside the
    model). *)
Definition update_element (options : Options) (obj : value)
    (store : list value * gmap string value) : M (list value * gmap string value) :=
  let '(results, entities) := store in
  id ← get_prop obj (idAttribute options);
  if truthy id then
    let results := if indexOf id results is None then results ++ [id] else results in
    mret (results,
          assign (to_key id) (onUpdate options (default VUndef (entities !! to_key id)) obj)
            entities)
  else
    _ ← warn (missing_id_warning options);
    mret (results, entities).

Definition updateInResource (payload : value) (action : Action.t) (state : Resource)
    (options : Options) : M Resource :=
  store ← forEach (update_element options) (to_array payload) (results state, entities state);
  mret (set_store store state).

(** The body of the [forEach] of [destroyInResource]. *)
Definition destroy_element (options : Options) (obj : value)
    (store : list value * gmap string value) : M (list value * gmap string value) :=
  let '(results, entities) := store in
  id ← (if is_number_or_string obj then mret obj else get_prop obj (idAttribute options));
  let results := match indexOf id results with
                 | Some idx => splice1 idx results
                 | None => results
                 end in
  mret (results, delete (to_key id) entities).

Definition destroyInResource (payload : value) (action : Action.t) (state : Resource)
    (options : Options) : M Resource :=
  store ← forEach (destroy_element options) (to_array payload) (results state, entities state);
  mret (set_store store state).

Definition handleSuccess (crudType : option string) (action : Action.t) (state : Resource)
    (options : Options) : M Resource :=
  let payload := Action.payload action in
  let meta_ := Action.meta action in
  if negb (truthy payload) then mret state
  else
    key ← lower crudType;
    let newState := {|
      results := results state;
      entities := entities state;
      status := <[key := {|
        Status.pending := Some false;
        Status.id := None;
        Status.success := Some true;
        Status.payload := payload;
        Status.busy := false |}]> (status state);
      meta := if strict_eq meta_ VNull || strict_eq meta_ (VBool false)
              then ∅ else spread meta_ ∪ meta state;
      changeset := changeset state |} in
    let data := entityReducer options (default "" crudType) payload meta_ in
    if seg_is crudType "DESTROY"
    then destroyInResource data action newState options
    else updateInResource data action newState options.

Definition handleResource (domain method : option string) (action : Action.t)
    (state : Resource) (options : Options) : M Resource :=
  let newState := set_status (λ st, st) state in
  if seg_is method "START" then handleStart domain action newState options
  else if seg_is method "SUCCESS" then handleSuccess domain action newState options
  else if seg_is method "FAILURE" then handleFailure domain action newState options
  else if seg_is method "RESET" then handleClear domain action newState options
  else mret state.

(** The body of the [forEach] of the [REMOVE] case,
    [delete newState.changeset[form][field]].  A buffer the changeset owns
    loses the field.  Without one, [changeset[form]] is [undefined] and the
    [delete] is a [TypeError], unless the form names a member inherited from
    [Object.prototype]: then the [delete] acts on that built-in (which the
    model does not follow) and leaves the changeset alone, and, the module
    being strict code, it is a [TypeError] only for the one property that
    cannot be deleted, the [prototype] of the [constructor] function. *)
Definition remove_field (form : string) (field : value)
    (changeset : gmap string (gmap string value)) : M (gmap string (gmap string value)) :=
  match changeset !! form with
  | Some buffer => mret (<[form := delete (to_key field) buffer]> changeset)
  | None =>
      if bool_decide (form ∈ object_prototype_members) then
        if String.eqb form "constructor" && String.eqb (to_key field) "prototype"
        then throw TypeError
        else mret changeset
      else throw TypeError
  end.

(** [const { payload, meta = {} } = action; const { form = 'default' } = meta],
    as the key under which [changeset[form]] reads and writes.  Either
    default replaces only an [undefined]; destructuring [null] is a
    [TypeError]. *)
Definition changeset_form (action : Action.t) : M string :=
  let meta_ := match Action.meta action with VUndef => VObj 0 ∅ | m => m end in
  form ← get_prop meta_ "form";
  mret (to_key (match form with VUndef => VStr "default" | f => f end)).

(** The [MERGE] and [RESET] cases write the buffer with [assign], on the
    copy of the changeset; [MERGE] hands [changesetReducer] the buffer the
    changeset owns, or nothing.  The [REMOVE] case edits the buffer of the
    previous state in place; the returned state, which is what the model
    gives, holds the same buffer. *)
Definition handleChangeset (domain method : option string) (action : Action.t)
    (state : Resource) (options : Options) : M Resource :=
  let payload := Action.payload action in
  form ← changeset_form action;
  if seg_is method "MERGE" then
    mret (set_changeset
            (assign form (changesetReducer options (changeset state !! form) payload)
               (changeset state))
            state)
  else if seg_is method "REMOVE" then
    changeset' ← forEach (remove_field form) (to_array payload) (changeset state);
    mret (set_changeset changeset' state)
  else if seg_is method "RESET" then
    mret (set_changeset (assign form ∅ (changeset state)) state)
  else mret state.

(** The function [resourceReducer] returns, for the uppercased [name]. *)
Definition reducer (name : string) (options : Options) (state : Resource)
    (action : Action.t) : M Resource :=
  let segments := split (Action.type action) in
  let actionName := segments !! 0%nat in
  let actionDomain := segments !! 1%nat in
  let actionMethod := segments !! 2%nat in
  if seg_is actionName name then
    if seg_is actionDomain "RESOURCE" then mret initialResourceState
    else if seg_is actionDomain "META" then mret (set_meta ∅ state)
    else if seg_is actionDomain "CHANGESET"
    then handleChangeset actionDomain actionMethod action state options
    else handleResource actionDomain actionMethod action state options
  else mret state.

(** The factory: it throws on an empty name, uppercases the name once and
    fills in the defaults; the returned function starts from the initial
    state when it is given none. *)
Definition resourceReducer (resourceName : string) (options : ResourceReducerOptions)
    : exn + (option Resource → Action.t → M Resource) :=
  if String.eqb resourceName "" then inl (Error "[resourceReducer]: Expected resource name")
  else
    let name := toUpperCase resourceName in
    let options := with_defaults options in
    inr (λ state action, reducer name options (default initialResourceState state) action).

(** ** Sample data *)

Module Sample.

Definition object (ref : nat) (fields : list (string * value)) : value :=
  VObj ref (list_to_map fields).

Definition alice : value := object 1 [("id", VNum 1); ("name", VStr "A")].
Definition bob : value := object 2 [("id", VNum 2); ("name", VStr "B")].
Definition anonymous : value := object 3 [("name", VStr "C")].
Definition proto : value := object 9 [("id", VStr "__proto__"); ("name", VStr "P")].

Definition action (type : string) (payload : value) : Action.t :=
  Action.mk type payload VUndef.

(** The function [resourceReducer('USERS')] returns. *)
Definition users : option Resource → Action.t → M Resource :=
  λ state action,
    reducer "USERS" (with_defaults no_options) (default initialResourceState state) action.

(** The slice after a fetch of [alice] and [bob]. *)
Definition fetched : Resource := {|
  results := [VNum 1; VNum 2];
  entities := <["1" := alice]> (<["2" := bob]> ∅);
  meta := ∅;
  changeset := ∅;
  status := <["fetch" := {|
    Status.pending := Some false;
    Status.id := None;
    Status.success := Some true;
    Status.payload := VArr 0 [alice; bob];
    Status.busy := false |}]> createStatus;
|}.

(** The data of the scenarios of the specification. *)
Definition payload_1 : value := object 7 [].
Definition alice_2 : value := object 4 [("id", VNum 1); ("name", VStr "A2")].

Definition started : Resource :=
  set_status <["fetch" := Status.mk (Some true) None None payload_1 true]> initialResourceState.

Definition updated : Resource :=
  set_status
    <["update" := Status.mk (Some false) None (Some true) alice_2 false]>
    (set_store ([VNum 1; VNum 2], <["1" := alice_2]> (entities fetched)) fetched).

End Sample.

(** ** Vocabulary of the properties *)

(** A domain that is routed to [handleResource]. *)
Definition operation_domain (d : string) : Prop :=
  d ≠ "RESOURCE" ∧ d ≠ "META" ∧ d ≠ "CHANGESET".


Definition nullish (v : value) : bool :=
  match v with VUndef | VNull => true | _ => false end.




Definition is_object (v : value) : bool :=
  match v with VObj _ _ => true | _ => false end.

(** What [===] compares: the value of a primitive, the reference of an
    array or an object. *)
Inductive identity : Type :=
  | IUndef
  | INull
  | IBool (b : bool)
  | INum (n : Z)
  | IStr (s : string)
  | IArr (ref : nat)
  | IObj (ref : nat).

#[global] Instance identity_eq_dec : EqDecision identity.
Proof. solve_decision. Defined.

Definition identity_of (v : value) : identity :=
  match v with
  | VUndef => IUndef
  | VNull => INull
  | VBool b => IBool b
  | VNum n => INum n
  | VStr s => IStr s
  | VArr r _ => IArr r
  | VObj r _ => IObj r
  end.

(** No two entries of [results] are [===]. *)
Definition distinct (rs : list value) : Prop := NoDup (identity_of <$> rs).

(** [results] with the first occurrence of [id] spliced out. *)
Definition without (id : value) (rs : list value) : list value :=
  match indexOf id rs with
  | Some idx => splice1 idx rs
  | None => rs
  end.

(** The identifier an element contributes: on destroy a number or a string
    is its own identifier, and every identifier read is used; on update a
    falsy identifier makes the element skipped. *)
Definition element_id (o : Options) (destroy : bool) (obj : value) : option value :=
  if destroy && is_number_or_string obj then Some obj
  else match get_prop obj (idAttribute o) with
       | (_, inr id) => if destroy || truthy id then Some id else None
       | (_, inl _) => None
       end.

(** The property keys of the identifiers in [results]. *)
Definition keys (rs : list value) : gset string := list_to_set (to_key <$> rs).

(** A class of identifiers on which the property key tells identifiers
    apart exactly as [===] does. *)
Definition key_faithful (P : value → Prop) : Prop :=
  ∀ x y, P x → P y → (to_key x = to_key y ↔ identity_of x = identity_of y).

(** A class of identifiers none of which has the property key
    [__proto__], under which [assign] stores nothing. *)
Definition storable (P : value → Prop) : Prop :=
  ∀ x, P x → to_key x ≠ "__proto__".

(** The numbers of the model: the safe integers. *)
Definition is_number (v : value) : Prop :=
  ∃ n, v = VNum n ∧ (Z.abs n < 2 ^ 53)%Z.

(** The strings other than [__proto__]. *)
Definition is_storable_string (v : value) : Prop :=
  ∃ s, v = VStr s ∧ s ≠ "__proto__".

(** The identifiers that the entity merger of the slice [name] takes from
    an action: those of the elements of the data of a SUCCESS with a truthy
    payload, addressed to the slice under an operation domain. *)
Definition carried_ids (name : string) (o : Options) (a : Action.t) : list value :=
  let segments := split (Action.type a) in
  match segments !! 1%nat with
  | Some d =>
      if seg_is (segments !! 0%nat) name
         && negb (String.eqb d "RESOURCE" || String.eqb d "META" || String.eqb d "CHANGESET")
         && seg_is (segments !! 2%nat) "SUCCESS" && truthy (Action.payload a)
      then omap (element_id o (String.eqb d "DESTROY"))
             (to_array (entityReducer o d (Action.payload a) (Action.meta a)))
      else []
  | None => []
  end.


(** The states the reducer of the slice [name] builds from the initial
    state with actions whose identifiers are in [P]. *)
Inductive reachable (P : value → Prop) (name : string) (o : Options) : Resource → Prop :=
  | reachable_initial : reachable P name o initialResourceState
  | reachable_step (s s' : Resource) (a : Action.t) (w : list string) :
      reachable P name o s →
      Forall P (carried_ids name o a) →
      reducer name o s a = (w, inr s') →
      reachable P name o s'.

(** The identifiers in [results] are in [P] and their property keys are
    the keys of [entities]. *)
Definition corresponds (P : value → Prop) (rs : list value) (es : gmap string value) : Prop :=
  Forall P rs ∧ dom es = keys rs.

(** The methods whose handler writes one status and nothing else. *)
Definition writes_status (m : string) : Prop :=
  m = "START" ∨ m = "FAILURE" ∨ m = "RESET".

(** The methods [handleResource] knows. *)
Definition resource_methods : list string := ["START"; "SUCCESS"; "FAILURE"; "RESET"].

(** The methods [handleChangeset] knows. *)
Definition changeset_methods : list string := ["MERGE"; "REMOVE"; "RESET"].

(** The operations [createStatus] gives a status. *)
Definition status_keys : list string := ["fetch"; "create"; "update"; "destroy"].

(** [segments.join('/')] *)
Fixpoint join_slash (segments : list string) : string :=
  match segments with
  | [] => ""
  | [seg] => seg
  | seg :: rest => seg +:+ "/" +:+ join_slash rest
  end.

(** A segment: a string without a slash. *)
Fixpoint no_slash (s : string) : bool :=
  match s with
  | EmptyString => true
  | String c rest => negb (Ascii.eqb c "/"%char) && no_slash rest
  end.


(** The identifier of an element that is an object: the field named
    [idAttribute] when the object has it and it is truthy. *)
Definition identifier (o : Options) (obj : value) : option value :=
  match obj with
  | VObj _ fields =>
      match fields !! idAttribute o with
      | Some id => if truthy id then Some id else None
      | None => None
      end
  | _ => None
  end.



(** ** Basic facts *)

Lemma seg_is_true (seg : option string) (lit : string) :
  seg_is seg lit = true ↔ seg = Some lit.
Proof.
  destruct seg as [s|]; simpl; [|split; discriminate].
  rewrite String.eqb_eq. split; congruence.
Qed.

Lemma seg_is_false (seg : option string) (lit : string) :
  seg_is seg lit = false ↔ seg ≠ Some lit.
Proof.
  rewrite <- seg_is_true. destruct (seg_is seg lit); split; congruence.
Qed.

Lemma seg_is_refl (lit : string) : seg_is (Some lit) lit = true.
Proof. by apply seg_is_true. Qed.

Lemma set_status_id (s : Resource) : set_status (λ st, st) s = s.
Proof. by destruct s. Qed.

Lemma assign_stored {A} (k : string) (v : A) (own : gmap string A) :
  k ≠ "__proto__" ∨ is_Some (own !! k) → assign k v own = <[k := v]> own.
Proof.
  intros Hk. unfold assign. destruct (String.eqb_spec k "__proto__") as [->|]; [|done].
  destruct Hk as [|Hown]; [done|]. by rewrite bool_decide_eq_true_2.
Qed.

Lemma assign_proto {A} (v : A) (own : gmap string A) :
  own !! "__proto__" = None → assign "__proto__" v own = own.
Proof.
  intros Hown. unfold assign. simpl. rewrite bool_decide_eq_false_2; [done|].
  rewrite Hown. by intros [? [=]].
Qed.

Lemma assign_cases {A} (k : string) (v : A) (own : gmap string A) :
  ((k ≠ "__proto__" ∨ is_Some (own !! k)) ∧ assign k v own = <[k := v]> own) ∨
  (k = "__proto__" ∧ own !! k = None ∧ assign k v own = own).
Proof.
  destruct (decide (k = "__proto__")) as [->|Hk].
  - destruct (own !! "__proto__") as [x|] eqn:Hown.
    + left. assert (is_Some (own !! "__proto__")) as Hsome by (by rewrite Hown).
      split; [by right|]. apply assign_stored. by right.
    + right. by rewrite assign_proto.
  - left. split; [by left|]. apply assign_stored; by left.
Qed.

Lemma lookup_assign_ne {A} (k k' : string) (v : A) (own : gmap string A) :
  k ≠ k' → assign k v own !! k' = own !! k'.
Proof.
  intros Hne. destruct (assign_cases k v own) as [[_ ->]|(_ & _ & ->)]; [|done].
  by apply lookup_insert_ne.
Qed.

Lemma assign_is_Some {A} (k k' : string) (v : A) (own : gmap string A) :
  is_Some (own !! k') → is_Some (assign k v own !! k').
Proof.
  intros Hk'. destruct (assign_cases k v own) as [[_ ->]|(_ & _ & ->)]; [|done].
  rewrite lookup_insert. by case_decide.
Qed.

Lemma assign_assign {A} (k : string) (v1 v2 : A) (own : gmap string A) :
  assign k v2 (assign k v1 own) = assign k v2 own.
Proof.
  destruct (assign_cases k v1 own) as [[Hk ->]|(_ & _ & ->)]; [|done].
  rewrite (assign_stored k v2 (<[k := v1]> own)).
  - rewrite insert_insert_eq. symmetry. by apply assign_stored.
  - right. rewrite lookup_insert_eq. by eexists.
Qed.

Lemma insert_assign {A} (k : string) (v1 v2 : A) (own : gmap string A) :
  <[k := v2]> (assign k v1 own) = <[k := v2]> own.
Proof.
  destruct (assign_cases k v1 own) as [[_ ->]|(_ & _ & ->)]; [|done].
  apply insert_insert_eq.
Qed.

Lemma resourceReducer_inr (r : string) (opts : ResourceReducerOptions)
    (red : option Resource → Action.t → M Resource) :
  resourceReducer r opts = inr red →
  r ≠ "" ∧
  red = λ state action,
          reducer (toUpperCase r) (with_defaults opts) (default initialResourceState state) action.
Proof.
  unfold resourceReducer. destruct (String.eqb_spec r ""); [discriminate|].
  intros [= <-]. done.
Qed.


Lemma reducer_operation (name : string) (o : Options) (s : Resource) (a : Action.t)
    (d : string) (rest : list string) :
  split (Action.type a) = name :: d :: rest →
  operation_domain d →
  reducer name o s a = handleResource (Some d) (head rest) a s o.
Proof.
  intros Hsplit (H1 & H2 & H3). unfold reducer. rewrite Hsplit. simpl.
  rewrite String.eqb_refl.
  destruct (String.eqb_spec d "RESOURCE"); [done|].
  destruct (String.eqb_spec d "META"); [done|].
  destruct (String.eqb_spec d "CHANGESET"); [done|].
  by destruct rest.
Qed.

Lemma reducer_mismatch (name : string) (o : Options) (s : Resource) (a : Action.t) :
  head (split (Action.type a)) ≠ Some name → reducer name o s a = mret s.
Proof.
  intros Hne. unfold reducer.
  replace (split (Action.type a) !! 0%nat) with (head (split (Action.type a)))
    by by destruct (split (Action.type a)).
  apply seg_is_false in Hne. by rewrite Hne.
Qed.

Lemma strict_eq_identity (a b : value) :
  strict_eq a b = true ↔ identity_of a = identity_of b.
Proof.
  destruct a, b; simpl; try (split; [discriminate|done]); try done.
  - rewrite Bool.eqb_true_iff. split; congruence.
  - rewrite Z.eqb_eq. split; congruence.
  - rewrite String.eqb_eq. split; congruence.
  - rewrite Nat.eqb_eq. split; congruence.
  - rewrite Nat.eqb_eq. split; congruence.
Qed.

Lemma indexOf_None (id : value) (rs : list value) :
  indexOf id rs = None ↔ identity_of id ∉ identity_of <$> rs.
Proof.
  induction rs as [|x rs IH]; simpl.
  - split; [intros _; apply not_elem_of_nil|done].
  - rewrite not_elem_of_cons, <- IH.
    destruct (strict_eq x id) eqn:Hx.
    + apply strict_eq_identity in Hx. split; [done|]. intros [? _]. congruence.
    + assert (identity_of id ≠ identity_of x) as Hne.
      { intros Heq. symmetry in Heq. apply strict_eq_identity in Heq. congruence. }
      destruct (indexOf id rs); simpl; split; try done. by intros [_ ?].
Qed.

(** ** Action router *)

(** C9. Identity on mismatch: when the first segment of the action type is
    not the uppercased configured name, the reducer returns the given state
    unchanged and emits nothing, whatever the remaining segments, the
    payload and the meta are. *)
Theorem identity_on_mismatch (r : string) (opts : ResourceReducerOptions)
    (red : option Resource → Action.t → M Resource) (s : Resource) (a : Action.t) :
  resourceReducer r opts = inr red →
  head (split (Action.type a)) ≠ Some (toUpperCase r) →
  red (Some s) a = ([], inr s).
Proof.
  intros [_ ->]%resourceReducer_inr Hne. simpl.
  by apply reducer_mismatch.
Qed.

Lemma identity_on_mismatch_witness :
  Sample.users (Some Sample.fetched) (Action.mk "POSTS/FETCH/SUCCESS" (VArr 0 [Sample.anonymous]) VNull)
  = ([], inr Sample.fetched).
Proof.
  apply (identity_on_mismatch "users" no_options); [reflexivity|].
  vm_compute. discriminate.
Defined.

(** C1 fails as stated: only the configured name is uppercased.  The slice
    configured as USERS ignores a whole-resource reset whose first segment
    is [users], although both sides agree once uppercased, and obeys the one
    whose first segment is [USERS]. *)
Lemma lowercase_segment_not_matched :
  resourceReducer "USERS" no_options = inr Sample.users ∧
  toUpperCase "users" = toUpperCase "USERS" ∧
  Sample.users (Some Sample.fetched) (Sample.action "users/RESOURCE/RESET" VUndef)
    = ([], inr Sample.fetched) ∧
  Sample.users (Some Sample.fetched) (Sample.action "USERS/RESOURCE/RESET" VUndef)
    = ([], inr initialResourceState) ∧
  Sample.fetched ≠ initialResourceState.
Proof.
  repeat split; try reflexivity.
  intros H. apply (f_equal results) in H. discriminate.
Qed.

(** C1, amended. The letter case of the configured name is irrelevant: names
    that agree once uppercased configure the same reducer.  The first
    segment of the action type is compared as it is written: a
    whole-resource reset yields the initial state when that segment is
    exactly the uppercased configured name, and leaves the state alone
    otherwise; likewise for a reset of [meta]. *)
Theorem configured_name_uppercased_segment_verbatim (r r' : string)
    (opts : ResourceReducerOptions) (red : option Resource → Action.t → M Resource) :
  resourceReducer r opts = inr red →
  (r' ≠ "" → toUpperCase r' = toUpperCase r → resourceReducer r' opts = inr red) ∧
  (∀ (s : Resource) (a : Action.t) (seg : string) (rest : list string),
     split (Action.type a) = seg :: "RESOURCE" :: rest →
     red (Some s) a
     = ([], inr (if decide (seg = toUpperCase r) then initialResourceState else s))) ∧
  (∀ (s : Resource) (a : Action.t) (seg : string) (rest : list string),
     split (Action.type a) = seg :: "META" :: rest →
     red (Some s) a
     = ([], inr (if decide (seg = toUpperCase r) then set_meta ∅ s else s))).
Proof.
  intros [Hr ->]%resourceReducer_inr. split_and!.
  - intros Hr' Hup. unfold resourceReducer.
    destruct (String.eqb_spec r' ""); [done|]. by rewrite Hup.
  - intros s a seg rest Hsplit. simpl. case_decide as Hseg.
    + subst seg. unfold reducer. rewrite Hsplit. simpl.
      by rewrite String.eqb_refl.
    + apply reducer_mismatch. rewrite Hsplit. simpl. congruence.
  - intros s a seg rest Hsplit. simpl. case_decide as Hseg.
    + subst seg. unfold reducer. rewrite Hsplit. simpl.
      by rewrite String.eqb_refl.
    + apply reducer_mismatch. rewrite Hsplit. simpl. congruence.
Qed.

Lemma configured_name_uppercased_segment_verbatim_witness :
  resourceReducer "Users" no_options = inr Sample.users ∧
  Sample.users (Some Sample.fetched) (Sample.action "USERS/RESOURCE/RESET" VUndef)
  = ([], inr initialResourceState).
Proof.
  pose proof (configured_name_uppercased_segment_verbatim "USERS" "Users" no_options
                Sample.users eq_refl) as (Hname & Hreset & _).
  split.
  - apply Hname; [discriminate | reflexivity].
  - apply (Hreset Sample.fetched (Sample.action "USERS/RESOURCE/RESET" VUndef) "USERS" ["RESET"]).
    reflexivity.
Defined.

(** ** Runs of the monad *)


Lemma bind_ret {A B} (f : A → M B) (a : A) : mret a ≫= f = f a.
Proof. unfold mbind, mret, M_bind, M_ret. by destruct (f a). Qed.

Lemma bind_pure {A B} (f : A → M B) (a : A) : ([], inr a) ≫= f = f a.
Proof. apply bind_ret. Qed.

Ltac run := repeat (rewrite bind_ret || rewrite bind_pure).

Lemma bind_throw {A B} (f : A → M B) (m : M A) (w : list string) (e : exn) :
  m = (w, inl e) → m ≫= f = (w, inl e).
Proof. by intros ->. Qed.

Lemma bind_inr_inv {A B} (f : A → M B) (m : M A) (w : list string) (b : B) :
  m ≫= f = (w, inr b) →
  ∃ w1 a w2, m = (w1, inr a) ∧ f a = (w2, inr b) ∧ w = w1 ++ w2.
Proof.
  destruct m as [w1 [e|a]]; [discriminate|].
  unfold mbind, M_bind. destruct (f a) as [w2 r] eqn:Hf.
  intros [= <- ->]. by exists w1, a, w2.
Qed.

Lemma get_prop_returns (v : value) (k : string) :
  nullish v = false → ∃ x, get_prop v k = ([], inr x).
Proof.
  destruct v; try discriminate; intros _; simpl; try case_match; eauto.
Qed.

Lemma get_prop_throws (v : value) (k : string) :
  nullish v = true → get_prop v k = ([], inl TypeError).
Proof. by destruct v. Qed.


Lemma forEach_app {A B} (f : A → B → M B) (xs ys : list A) (acc : B) :
  forEach f (xs ++ ys) acc = forEach f xs acc ≫= forEach f ys.
Proof.
  revert acc. induction xs as [|x xs IH]; intros acc; simpl.
  - symmetry. apply bind_ret.
  - destruct (f x acc) as [w [e|acc']]; [done|].
    unfold mbind at 1 3, M_bind. rewrite IH.
    destruct (forEach f xs acc') as [w1 [e|b]]; simpl; [done|].
    unfold mbind, M_bind. destruct (forEach f ys b). by rewrite app_assoc.
Qed.



(** What [handleSuccess] does on a truthy payload, with the merge of the
    entities left as a [forEach]. *)
Lemma handleSuccess_truthy (d : string) (a : Action.t) (s : Resource) (o : Options) :
  truthy (Action.payload a) = true →
  handleSuccess (Some d) a s o
  = store ← forEach (if String.eqb d "DESTROY" then destroy_element o else update_element o)
              (to_array (entityReducer o d (Action.payload a) (Action.meta a)))
              (results s, entities s);
    mret {|
      results := store.1;
      entities := store.2;
      meta := if strict_eq (Action.meta a) VNull || strict_eq (Action.meta a) (VBool false)
              then ∅ else spread (Action.meta a) ∪ meta s;
      changeset := changeset s;
      status := <[toLowerCase d := {|
        Status.pending := Some false;
        Status.id := None;
        Status.success := Some true;
        Status.payload := Action.payload a;
        Status.busy := false |}]> (status s) |}.
Proof.
  intros Hp. unfold handleSuccess, lower. rewrite Hp.
  cbn [negb default seg_is]. rewrite bind_ret.
  by destruct (String.eqb d "DESTROY").
Qed.

Lemma reducer_success (name : string) (o : Options) (s : Resource) (a : Action.t)
    (d : string) (rest : list string) :
  split (Action.type a) = name :: d :: "SUCCESS" :: rest →
  operation_domain d →
  reducer name o s a = handleSuccess (Some d) a s o.
Proof.
  intros Hsplit Hd. rewrite (reducer_operation _ _ _ _ _ _ Hsplit Hd).
  unfold handleResource. simpl. by rewrite set_status_id.
Qed.

(** ** Status tracker *)

(** C5. A SUCCESS action under an operation domain whose payload is falsy
    leaves the slice as it is: the reducer returns the given state (status,
    entities, meta and changeset included) and emits nothing, whether or not
    the action targets this slice. *)
Theorem success_falsy_payload_noop (r : string) (opts : ResourceReducerOptions)
    (red : option Resource → Action.t → M Resource) (s : Resource) (a : Action.t)
    (seg d : string) (rest : list string) :
  resourceReducer r opts = inr red →
  split (Action.type a) = seg :: d :: "SUCCESS" :: rest →
  operation_domain d →
  truthy (Action.payload a) = false →
  red (Some s) a = ([], inr s).
Proof.
  intros [_ ->]%resourceReducer_inr Hsplit Hd Hp. simpl.
  destruct (decide (seg = toUpperCase r)) as [->|Hseg].
  - rewrite (reducer_success _ _ _ _ _ _ Hsplit Hd).
    unfold handleSuccess. by rewrite Hp.
  - apply reducer_mismatch. rewrite Hsplit. simpl. congruence.
Qed.

Lemma success_falsy_payload_noop_witness :
  Sample.users (Some Sample.fetched) (Sample.action "USERS/DESTROY/SUCCESS" (VNum 0))
  = ([], inr Sample.fetched).
Proof.
  apply (success_falsy_payload_noop "USERS" no_options _ _ _ "USERS" "DESTROY" []);
    [reflexivity | reflexivity | | reflexivity].
  repeat split; discriminate.
Defined.




(** ** Entity merger *)

Lemma forEach_store_fields (f : value → list value * gmap string value →
                                M (list value * gmap string value))
    (data : list value) (s s' : Resource) (w : list string) :
  (store ← forEach f data (results s, entities s); mret (set_store store s)) = (w, inr s') →
  forEach f data (results s, entities s) = (w, inr (results s', entities s')) ∧
  meta s' = meta s ∧ changeset s' = changeset s ∧ status s' = status s.
Proof.
  intros (w1 & [rs es] & w2 & Hrun & [= <- <-] & ->)%bind_inr_inv.
  by rewrite app_nil_r.
Qed.











(** ** Exceptions *)




Lemma changeset_form_cases (a : Action.t) :
  if strict_eq (Action.meta a) VNull
  then changeset_form a = ([], inl TypeError)
  else ∃ form, changeset_form a = ([], inr form).
Proof.
  unfold changeset_form. destruct (Action.meta a); simpl; by eexists.
Qed.





(** ** Identifiers in [results] *)

(** [indexOf] finds the first position that holds an entry [===] to [id]. *)
Lemma indexOf_Some (id : value) (rs : list value) (i : nat) :
  indexOf id rs = Some i ↔
  (∃ x, rs !! i = Some x ∧ strict_eq x id = true) ∧
  (∀ j y, (j < i)%nat → rs !! j = Some y → strict_eq y id = false).
Proof.
  revert i. induction rs as [|x rs IH]; intros i; simpl.
  - split; [discriminate|]. by intros [(y & [=] & _) _].
  - destruct (strict_eq x id) eqn:Hx.
    + split.
      * intros [= <-]. split; [by exists x|]. intros j y Hj. lia.
      * intros [(y & Hy & Hyid) Hfirst]. destruct i as [|i]; [done|].
        specialize (Hfirst 0%nat x). simpl in Hfirst. rewrite Hfirst in Hx; [done|lia|done].
    + destruct i as [|i].
      * split; [by destruct (indexOf id rs)|].
        intros [(y & [= ->] & Hyid) _]. congruence.
      * specialize (IH i). destruct (indexOf id rs) as [k|]; simpl.
        -- split.
           ++ intros [= ->]. destruct IH as [[Hfound Hfirst] _]; [done|].
              split; [done|]. intros [|j] y Hj; simpl; [by intros [= <-]|].
              apply Hfirst. lia.
           ++ intros [Hfound Hfirst]. assert (Some k = Some i) as [= ->]; [|done].
              apply IH. split; [done|].
              intros j y Hj Hy. apply (Hfirst (S j) y); [lia|done].
        -- split; [done|]. intros [Hfound Hfirst].
           assert (@None nat = Some i) as [=]. apply IH. split; [done|].
           intros j y Hj Hy. apply (Hfirst (S j) y); [lia|done].
Qed.

Lemma splice1_delete (i : nat) (rs : list value) : splice1 i rs = delete i rs.
Proof. revert i. induction rs as [|x rs IH]; intros [|i]; simpl; by rewrite ?IH. Qed.

(** Splicing out the first occurrence of [id]: the other entries stay, in
    their order, and when the entries were distinct none is [===] to [id]
    afterwards. *)
Lemma without_elem_of (id x : value) (rs : list value) :
  x ∈ without id rs → x ∈ rs.
Proof.
  unfold without. destruct (indexOf id rs) as [i|]; [|done].
  rewrite splice1_delete. intros Hx. eapply elem_of_sublist, sublist_delete. done.
Qed.

Lemma without_keeps (id x : value) (rs : list value) :
  x ∈ rs → identity_of x ≠ identity_of id → x ∈ without id rs.
Proof.
  unfold without. induction rs as [|y rs IH]; simpl; [done|].
  intros Hx Hne. destruct (strict_eq y id) eqn:Hy.
  - simpl. apply strict_eq_identity in Hy.
    apply elem_of_cons in Hx as [->|Hx]; [congruence|done].
  - destruct (indexOf id rs) as [i|] eqn:Hi; simpl; [|done].
    apply elem_of_cons in Hx as [->|Hx]; [left|right; by apply IH].
Qed.

Lemma without_distinct (id : value) (rs : list value) :
  distinct rs → distinct (without id rs).
Proof.
  unfold distinct, without. destruct (indexOf id rs) as [i|]; [|done].
  rewrite splice1_delete. intros Hrs. eapply sublist_NoDup; [done|].
  apply fmap_sublist, sublist_delete.
Qed.

Lemma without_absent (id : value) (rs : list value) :
  distinct rs → indexOf id (without id rs) = None.
Proof.
  unfold distinct, without. induction rs as [|y rs IH]; simpl; [done|].
  intros [Hy Hrs]%NoDup_cons. destruct (strict_eq y id) eqn:Hyid.
  - simpl. apply indexOf_None. apply strict_eq_identity in Hyid. by rewrite <- Hyid.
  - specialize (IH Hrs). destruct (indexOf id rs) as [i|] eqn:Hi; simpl.
    + by rewrite Hyid, IH.
    + by rewrite Hyid, Hi.
Qed.

Lemma without_absent_mono (id id' : value) (rs : list value) :
  indexOf id rs = None → indexOf id (without id' rs) = None.
Proof.
  rewrite !indexOf_None. intros Hid Hin. apply Hid.
  apply list_elem_of_fmap in Hin as (x & -> & Hx).
  apply list_elem_of_fmap. exists x. split; [done|]. by eapply without_elem_of.
Qed.

Lemma destroy_element_eq (o : Options) (obj id : value) (rs : list value)
    (es : gmap string value) :
  element_id o true obj = Some id →
  destroy_element o obj (rs, es) = ([], inr (without id rs, delete (to_key id) es)).
Proof.
  unfold element_id, destroy_element. simpl.
  destruct (is_number_or_string obj); [intros [= ->]; by run|].
  destruct (nullish obj) eqn:Hobj.
  - by rewrite (get_prop_throws _ _ Hobj).
  - destruct (get_prop_returns obj (idAttribute o) Hobj) as [x ->]. intros [= ->]. by run.
Qed.

Lemma destroy_element_inv (o : Options) (obj : value) (rs rs' : list value)
    (es es' : gmap string value) (w : list string) :
  destroy_element o obj (rs, es) = (w, inr (rs', es')) →
  ∃ id, element_id o true obj = Some id ∧
        w = [] ∧ rs' = without id rs ∧ es' = delete (to_key id) es.
Proof.
  destruct (element_id o true obj) as [id|] eqn:Hid.
  - rewrite (destroy_element_eq _ _ _ _ _ Hid). intros [= <- <- <-]. by exists id.
  - unfold element_id, destroy_element in *. simpl in Hid.
    destruct (is_number_or_string obj); [done|].
    destruct (get_prop obj (idAttribute o)) as [w' [e|id]]; done.
Qed.

Lemma update_element_inv (o : Options) (obj : value) (rs rs' : list value)
    (es es' : gmap string value) (w : list string) :
  update_element o obj (rs, es) = (w, inr (rs', es')) →
  match element_id o false obj with
  | Some id =>
      rs' = (if indexOf id rs is None then rs ++ [id] else rs) ∧
      es' = assign (to_key id) (onUpdate o (default VUndef (es !! to_key id)) obj) es
  | None => rs' = rs ∧ es' = es
  end.
Proof.
  unfold element_id, update_element. simpl.
  destruct (nullish obj) eqn:Hobj.
  - by rewrite (get_prop_throws _ _ Hobj).
  - destruct (get_prop_returns obj (idAttribute o) Hobj) as [id ->]. run.
    destruct (truthy id); by intros [= <- <- <-].
Qed.


Lemma forEach_cons_inv {A B} (f : A → B → M B) (x : A) (xs : list A) (acc b : B)
    (w : list string) :
  forEach f (x :: xs) acc = (w, inr b) →
  ∃ w1 acc' w2, f x acc = (w1, inr acc') ∧ forEach f xs acc' = (w2, inr b) ∧ w = w1 ++ w2.
Proof. apply bind_inr_inv. Qed.

(** A destroy emits nothing, keeps [results] distinct, and never brings
    back an identifier or a key that is absent. *)
Lemma destroy_fold_preserves (o : Options) (data : list value) (rs rs' : list value)
    (es es' : gmap string value) (w : list string) :
  forEach (destroy_element o) data (rs, es) = (w, inr (rs', es')) →
  w = [] ∧
  (distinct rs → distinct rs') ∧
  (∀ id, indexOf id rs = None → indexOf id rs' = None) ∧
  (∀ k, es !! k = None → es' !! k = None).
Proof.
  revert rs es w. induction data as [|obj data IH]; intros rs es w.
  - by intros [= <- <- <-].
  - intros (w1 & [rs2 es2] & w2 & Hobj & Hrest & ->)%forEach_cons_inv.
    apply destroy_element_inv in Hobj as (id & _ & -> & -> & ->).
    destruct (IH _ _ _ Hrest) as (-> & Hdist & Hidx & Hkey).
    repeat split.
    + intros Hrs. by apply Hdist, without_distinct.
    + intros id' Hid'. by apply Hidx, without_absent_mono.
    + intros k Hk. apply Hkey. rewrite lookup_delete. case_decide; done.
Qed.



(** ** The correspondence between [results] and [entities] *)

Lemma number_keys_faithful : key_faithful is_number.
Proof.
  intros x y (n & -> & _) (m & -> & _). simpl. split.
  - by intros ->%(inj pretty).
  - by intros [= ->].
Qed.

Lemma string_keys_faithful : key_faithful is_storable_string.
Proof. intros x y (n & -> & _) (m & -> & _). simpl. split; congruence. Qed.

Lemma pretty_N_go_not_proto (x : N) (s : string) :
  s ≠ "__proto__" → pretty_N_go x s ≠ "__proto__".
Proof.
  revert s. induction (N.lt_wf_0 x) as [x _ IH]; intros s Hs.
  assert (x = 0 ∨ 0 < x)%N as [->|Hx] by lia.
  - by rewrite pretty_N_go_0.
  - rewrite pretty_N_go_step by done. apply IH.
    { by apply N.div_lt. }
    unfold pretty_N_char. by repeat case_match.
Qed.

Lemma number_keys_storable : storable is_number.
Proof.
  intros x (n & -> & _). simpl. destruct n as [|n|n]; [done| |done].
  unfold pretty, pretty_Z, pretty, pretty_positive, pretty, pretty_N.
  case_decide; [done|]. by apply pretty_N_go_not_proto.
Qed.

Lemma string_keys_storable : storable is_storable_string.
Proof. by intros x (n & -> & Hn). Qed.

Lemma keys_elem_of (k : string) (rs : list value) :
  k ∈ keys rs ↔ ∃ x, x ∈ rs ∧ to_key x = k.
Proof.
  unfold keys. rewrite elem_of_list_to_set, list_elem_of_fmap. naive_solver.
Qed.

Section correspondence.
Context (P : value → Prop) (o : Options).

Lemma update_step_distinct (id : value) (rs : list value) :
  distinct rs → distinct (if indexOf id rs is None then rs ++ [id] else rs).
Proof.
  intros Hrs. destruct (indexOf id rs) eqn:Hidx; [done|].
  unfold distinct. rewrite fmap_app. apply NoDup_app. split_and!; [done| |apply NoDup_singleton].
  intros t Ht ->%list_elem_of_singleton. by apply indexOf_None in Hidx.
Qed.

Lemma update_step_corresponds (id v : value) (rs : list value) (es : gmap string value) :
  key_faithful P → storable P → P id → corresponds P rs es →
  corresponds P (if indexOf id rs is None then rs ++ [id] else rs) (assign (to_key id) v es).
Proof.
  intros HP Hstorable Hid [Hrs Hdom]. unfold corresponds.
  rewrite assign_stored by (left; by apply Hstorable).
  rewrite dom_insert_L, Hdom.
  destruct (indexOf id rs) as [i|] eqn:Hidx.
  - split; [done|].
    apply indexOf_Some in Hidx as [(x & Hx & Hxid) _].
    apply strict_eq_identity in Hxid.
    assert (x ∈ rs) as Hin by (apply list_elem_of_lookup; eauto).
    assert (to_key id ∈ keys rs); [|set_solver].
    apply keys_elem_of. exists x. split; [done|].
    apply HP; [|done..]. by eapply Forall_forall in Hrs.
  - split; [apply Forall_app; split; [done|by apply Forall_singleton]|].
    unfold keys. rewrite fmap_app, list_to_set_app_L. simpl. set_solver.
Qed.

Lemma destroy_step_corresponds (id : value) (rs : list value) (es : gmap string value) :
  key_faithful P → P id → distinct rs → corresponds P rs es →
  corresponds P (without id rs) (delete (to_key id) es).
Proof.
  intros HP Hid Hdist [Hrs Hdom]. split.
  - apply Forall_forall. intros x Hx%without_elem_of. by eapply Forall_forall in Hrs.
  - rewrite dom_delete_L, Hdom. apply set_eq. intros k.
    rewrite elem_of_difference, !keys_elem_of, not_elem_of_singleton. split.
    + intros [(x & Hx & <-) Hne]. exists x. split; [|done].
      apply without_keeps; [done|]. intros Heq. apply Hne.
      apply HP; [|done..]. by eapply Forall_forall in Hrs.
    + intros (x & Hx & <-). pose proof (without_elem_of _ _ _ Hx) as Hin.
      split; [by exists x|]. intros Heq.
      apply HP in Heq; [|by eapply Forall_forall in Hrs|done].
      pose proof (without_absent id rs Hdist) as Habsent.
      apply indexOf_None in Habsent. apply Habsent.
      rewrite <- Heq. by apply list_elem_of_fmap_2.
Qed.

Lemma update_fold_invariant (data : list value) (rs rs' : list value)
    (es es' : gmap string value) (w : list string) :
  forEach (update_element o) data (rs, es) = (w, inr (rs', es')) →
  (distinct rs → distinct rs') ∧
  (key_faithful P → storable P → Forall P (omap (element_id o false) data) →
   corresponds P rs es → corresponds P rs' es').
Proof.
  revert rs es w. induction data as [|obj data IH]; intros rs es w.
  - by intros [= <- <- <-].
  - intros (w1 & [rs2 es2] & w2 & Hobj & Hrest & ->)%forEach_cons_inv.
    apply update_element_inv in Hobj. destruct (IH _ _ _ Hrest) as [Hdist Hcorr].
    simpl. destruct (element_id o false obj) as [id|].
    + destruct Hobj as [-> ->]. split.
      * intros Hrs. by apply Hdist, update_step_distinct.
      * intros HP Hstorable [Hid Hids]%Forall_cons Hinv.
        apply Hcorr; [done..|]. by apply update_step_corresponds.
    + destruct Hobj as [-> ->]. split; [done|]. intros HP Hstorable Hids. by apply Hcorr.
Qed.

Lemma destroy_fold_invariant (data : list value) (rs rs' : list value)
    (es es' : gmap string value) (w : list string) :
  forEach (destroy_element o) data (rs, es) = (w, inr (rs', es')) →
  key_faithful P → Forall P (omap (element_id o true) data) →
  distinct rs → corresponds P rs es → corresponds P rs' es'.
Proof.
  revert rs es w. induction data as [|obj data IH]; intros rs es w.
  - by intros [= <- <- <-].
  - intros (w1 & [rs2 es2] & w2 & Hobj & Hrest & ->)%forEach_cons_inv HP.
    apply destroy_element_inv in Hobj as (id & Hid & -> & -> & ->).
    simpl. rewrite Hid. intros [HPid Hids]%Forall_cons Hdist Hinv.
    eapply IH; [done..| |].
    + by apply without_distinct.
    + by apply destroy_step_corresponds.
Qed.

End correspondence.

Lemma handleChangeset_store (domain method : option string) (a : Action.t)
    (s s' : Resource) (o : Options) (w : list string) :
  handleChangeset domain method a s o = (w, inr s') →
  results s' = results s ∧ entities s' = entities s.
Proof.
  unfold handleChangeset.
  intros (w1 & form & w2 & _ & Hrun & _)%bind_inr_inv.
  destruct (seg_is method "MERGE"); [by injection Hrun as _ <-|].
  destruct (seg_is method "REMOVE").
  { apply bind_inr_inv in Hrun as (? & cs & ? & _ & Hret & _). by injection Hret as _ <-. }
  destruct (seg_is method "RESET"); by injection Hrun as _ <-.
Qed.

(** What a step of the reducer does to [results] and [entities]: a
    whole-resource reset empties them, the entity merger folds the data of
    a SUCCESS addressed to the slice into them, and every other step keeps
    them. *)
Lemma reducer_store_cases (name : string) (o : Options) (s s' : Resource) (a : Action.t)
    (w : list string) :
  reducer name o s a = (w, inr s') →
  s' = initialResourceState ∨
  (results s' = results s ∧ entities s' = entities s) ∨
  (∃ d, split (Action.type a) !! 1%nat = Some d ∧
        carried_ids name o a
        = omap (element_id o (String.eqb d "DESTROY"))
            (to_array (entityReducer o d (Action.payload a) (Action.meta a))) ∧
        forEach (if String.eqb d "DESTROY" then destroy_element o else update_element o)
          (to_array (entityReducer o d (Action.payload a) (Action.meta a)))
          (results s, entities s)
        = (w, inr (results s', entities s'))).
Proof.
  unfold reducer, carried_ids.
  set (name' := split (Action.type a) !! 0%nat).
  set (domain := split (Action.type a) !! 1%nat).
  set (method := split (Action.type a) !! 2%nat).
  assert (domain = None → method = None) as Hdm
    by (subst domain method; by destruct (split (Action.type a)) as [|?[|?[|]]]).
  clearbody name' domain method.
  destruct (seg_is name' name); [|intros [= <- <-]; by right; left].
  destruct (seg_is domain "RESOURCE") eqn:Hresource; [intros [= <- <-]; by left|].
  destruct (seg_is domain "META") eqn:Hmeta; [intros [= <- <-]; by right; left|].
  destruct (seg_is domain "CHANGESET") eqn:Hchangeset.
  { intros Hrun%handleChangeset_store. by right; left. }
  unfold handleResource. rewrite set_status_id.
  destruct domain as [d|]; [|rewrite (Hdm eq_refl); intros [= <- <-]; by right; left].
  cbn [seg_is] in Hresource, Hmeta, Hchangeset. rewrite Hresource, Hmeta, Hchangeset.
  destruct (seg_is method "START") eqn:Hstart.
  { unfold handleStart, lower. run. intros [= <- <-]. by right; left. }
  destruct (seg_is method "SUCCESS") eqn:Hsuccess.
  - destruct (truthy (Action.payload a)) eqn:Hp.
    + rewrite (handleSuccess_truthy _ _ _ _ Hp).
      intros (w1 & [rs es] & w2 & Hrun & Heq & ->)%bind_inr_inv.
      injection Heq as <- <-. rewrite app_nil_r. right; right. by exists d.
    + unfold handleSuccess. rewrite Hp. intros [= <- <-]. by right; left.
  - destruct (seg_is method "FAILURE").
    { unfold handleFailure, lower. run. intros [= <- <-]. by right; left. }
    destruct (seg_is method "RESET").
    { unfold handleClear, lower. run. intros [= <- <-]. by right; left. }
    intros [= <- <-]. by right; left.
Qed.

Lemma reachable_invariant (P : value → Prop) (name : string) (o : Options) (s : Resource) :
  reachable P name o s →
  distinct (results s) ∧
  (key_faithful P → storable P → corresponds P (results s) (entities s)).
Proof.
  induction 1 as [|s s' a w _ [IHdist IHcorr] Hids Hstep].
  - split; [apply NoDup_nil_2|]. intros _ _. split; [apply Forall_nil_2|].
    unfold keys. simpl. by rewrite dom_empty_L.
  - apply reducer_store_cases in Hstep as [Hs'|[[Hrs Hes]|(d & Hd & Hcarried & Hrun)]].
    + subst s'. split; [apply NoDup_nil_2|]. intros _ _. split; [apply Forall_nil_2|].
      unfold keys. simpl. by rewrite dom_empty_L.
    + by rewrite Hrs, Hes.
    + rewrite Hcarried in Hids.
      destruct (String.eqb d "DESTROY").
      * split.
        -- by apply (destroy_fold_preserves _ _ _ _ _ _ _ Hrun).
        -- intros HP Hstorable. eapply destroy_fold_invariant; eauto.
      * destruct (update_fold_invariant P _ _ _ _ _ _ _ Hrun) as [Hdist Hcorr].
        split; [by apply Hdist|]. intros HP Hstorable. apply Hcorr; auto.
Qed.

(** ** Destroying twice *)



(** ** The orphan identifier *)

(** C3. The code departs from the correspondence it is written to keep:
    [indexOf] tells the number 1 from the string '1', the keys of
    [entities] do not.  After a fetch of the entity whose identifier is 1,
    a destroy of '1' finds nothing to splice out of [results] and deletes
    the entity: the state, built from the initial one by two actions, has
    1 in [results] and no entity for it. *)
Lemma string_destroy_leaves_orphan :
  ∃ s1 s2,
    Sample.users (Some initialResourceState)
      (Sample.action "USERS/FETCH/SUCCESS" (VArr 0 [Sample.alice]))
    = ([], inr s1) ∧
    results s1 = [VNum 1] ∧ entities s1 = {["1" := Sample.alice]} ∧
    Sample.users (Some s1) (Sample.action "USERS/DESTROY/SUCCESS" (VStr "1")) = ([], inr s2) ∧
    reachable (λ _, True) "USERS" defaultOptions s2 ∧
    results s2 = [VNum 1] ∧ entities s2 = ∅ ∧
    dom (entities s2) ≠ keys (results s2).
Proof.
  eexists _, _. split_and!; [reflexivity..| |reflexivity|reflexivity|].
  - eapply (reachable_step _ _ _ _ _ (Sample.action "USERS/DESTROY/SUCCESS" (VStr "1")));
      [|by apply Forall_forall|reflexivity].
    eapply (reachable_step _ _ _ _ _
              (Sample.action "USERS/FETCH/SUCCESS" (VArr 0 [Sample.alice])));
      [|by apply Forall_forall|reflexivity].
    constructor.
  - change (dom (∅ : gmap string value) ≠ keys [VNum 1]).
    intros Heq. assert ("1" ∈ keys [VNum 1]) as Hin.
    { rewrite keys_elem_of. exists (VNum 1). split; [|done]. by apply list_elem_of_singleton. }
    rewrite <- Heq, dom_empty_L in Hin. by apply not_elem_of_empty in Hin.
Qed.

(** X24. What holds of the correspondence between [results] and
    [entities].  In every state the reducer builds from the initial state,
    whatever the actions and the options, [results] holds no identifier
    twice.  With the identifier field [id], when the identifiers the
    actions addressed to the slice carry all belong to a class on which
    the property key tells identifiers apart as [===] does, and none of
    which has the key [__proto__] (the safe integers only, or the strings
    other than [__proto__] only), the identifiers in [results] are of that
    class, the keys of [entities] are exactly their property keys, and
    different positions of [results] hold different keys. *)
Theorem results_match_entities (P : value → Prop) (name : string) (o : Options)
    (s : Resource) :
  reachable P name o s →
  distinct (results s) ∧
  (idAttribute o = "id" → key_faithful P → storable P →
   Forall P (results s) ∧
   dom (entities s) = keys (results s) ∧
   (∀ i j x y, results s !! i = Some x → results s !! j = Some y →
               to_key x = to_key y → i = j)).
Proof.
  intros [Hdist Hcorr]%reachable_invariant. split; [done|].
  intros _ HP Hstorable. destruct (Hcorr HP Hstorable) as [Hrs Hdom]. split_and!; [done..|].
  intros i j x y Hx Hy Hkey.
  apply HP in Hkey;
    [|eapply Forall_forall; [exact Hrs|apply list_elem_of_lookup; eauto]..].
  eapply (NoDup_lookup _ i j (identity_of x) Hdist); rewrite list_lookup_fmap.
  - by rewrite Hx.
  - by rewrite Hy, Hkey.
Qed.

Lemma results_match_entities_witness :
  distinct (results Sample.fetched) ∧
  dom (entities Sample.fetched) = keys (results Sample.fetched) ∧
  (key_faithful is_number ∧ storable is_number) ∧
  (key_faithful is_storable_string ∧ storable is_storable_string).
Proof.
  destruct (results_match_entities is_number "USERS" defaultOptions Sample.fetched)
    as [Hdist Hcorr].
  - eapply (reachable_step _ _ _ initialResourceState _
              (Sample.action "USERS/FETCH/SUCCESS" (VArr 0 [Sample.alice; Sample.bob])) []).
    + constructor.
    + repeat constructor; eexists; (split; [reflexivity|done]).
    + reflexivity.
  - split_and!; [done| |apply number_keys_faithful|apply number_keys_storable
                |apply string_keys_faithful|apply string_keys_storable].
    by destruct (Hcorr eq_refl number_keys_faithful number_keys_storable) as (_ & Hdom & _).
Defined.

(** ** The scenarios of the specification

    The six example scenarios of the testable properties, resource name
    USERS and default options, run on the model. *)

Example scenario_1_fetch_start :
  Sample.users None (Sample.action "USERS/FETCH/START" Sample.payload_1) = ([], inr Sample.started) ∧
  status Sample.started !! "fetch" = Some (Status.mk (Some true) None None Sample.payload_1 true) ∧
  results Sample.started = [] ∧ entities Sample.started = ∅.
Proof. by split_and!. Qed.

Example scenario_2_fetch_success :
  Sample.users (Some initialResourceState)
    (Sample.action "USERS/FETCH/SUCCESS" (VArr 0 [Sample.alice; Sample.bob]))
  = ([], inr Sample.fetched).
Proof. reflexivity. Qed.

Example scenario_3_update_success :
  Sample.users (Some Sample.fetched) (Sample.action "USERS/UPDATE/SUCCESS" Sample.alice_2)
  = ([], inr Sample.updated) ∧
  results Sample.updated = [VNum 1; VNum 2] ∧ entities Sample.updated !! "1" = Some Sample.alice_2.
Proof. by split_and!. Qed.

Example scenario_4_destroy_success :
  ∃ s', Sample.users (Some Sample.updated) (Sample.action "USERS/DESTROY/SUCCESS" (VNum 1))
        = ([], inr s') ∧
        results s' = [VNum 2] ∧ entities s' = {["2" := Sample.bob]}.
Proof. eexists. by split_and!. Qed.

Example scenario_5_changeset_merge :
  ∃ s', Sample.users (Some initialResourceState)
          (Sample.action "USERS/CHANGESET/MERGE" (Sample.object 5 [("name", VStr "x")]))
        = ([], inr s') ∧
        changeset s' = {["default" := {["name" := VStr "x"]}]}.
Proof. eexists. by split_and!. Qed.

Example scenario_6_resource_reset :
  Sample.users (Some Sample.updated) (Sample.action "USERS/RESOURCE/ANYTHING" VUndef)
  = ([], inr initialResourceState).
Proof. reflexivity. Qed.

(** ** Further properties: the factory and the status tracker *)

Lemma upper_ascii_idemp (c : ascii) : upper_ascii (upper_ascii c) = upper_ascii c.
Proof. by destruct c as [[] [] [] [] [] [] [] []]. Qed.

Lemma toUpperCase_idemp (s : string) : toUpperCase (toUpperCase s) = toUpperCase s.
Proof.
  unfold toUpperCase. induction s as [|c s IH]; [done|].
  cbn [map_string]. by rewrite upper_ascii_idemp, IH.
Qed.

(** X1. The factory refuses the empty resource name with its configuration
    error.  For any other name it returns a reducer, which runs the closure
    for the uppercased name with each option the caller passed and, for
    each one left out, its default: the field [id], the [onUpdate] that
    returns the new entity, the [changesetReducer] that lays the changes
    over the buffer, the [entityReducer] and the [errorReducer] that return
    the payload.  The reducer starts from the initial state when it is
    given no state, and the factory returns the same reducer for the name
    as for the name in upper case. *)
Theorem factory_contract (r : string) (opts : ResourceReducerOptions) :
  resourceReducer "" opts = inl (Error "[resourceReducer]: Expected resource name") ∧
  (r ≠ "" →
   ∃ red, resourceReducer r opts = inr red ∧
     (∀ s a, red (Some s) a
             = reducer (toUpperCase r) {|
                 idAttribute := default "id" (opt_idAttribute opts);
                 onUpdate := default (λ prev next, next) (opt_onUpdate opts);
                 changesetReducer :=
                   default (λ changeset changes, spread changes ∪ default ∅ changeset)
                     (opt_changesetReducer opts);
                 entityReducer := default (λ _ payload _, payload) (opt_entityReducer opts);
                 errorReducer := default (λ _ payload _, payload) (opt_errorReducer opts);
               |} s a) ∧
     (∀ a, red None a = red (Some initialResourceState) a) ∧
     resourceReducer (toUpperCase r) opts = inr red ∧
     toUpperCase r ≠ "").
Proof.
  split; [done|]. intros Hr.
  assert (toUpperCase r ≠ "") as Hupper by (destruct r; [done|discriminate]).
  unfold resourceReducer.
  destruct (String.eqb_spec r ""); [done|].
  destruct (String.eqb_spec (toUpperCase r) ""); [done|].
  eexists. split_and!; [done..| |done]. by rewrite toUpperCase_idemp.
Qed.

Lemma status_writer (name : string) (o : Options) (a : Action.t) (d m : string)
    (rest : list string) :
  split (Action.type a) = name :: d :: m :: rest →
  operation_domain d →
  writes_status m →
  ∃ st, ∀ s, reducer name o s a = ([], inr (set_status (assign (toLowerCase d) st) s)).
Proof.
  intros Hsplit Hd Hm.
  destruct Hm as [Hm|[Hm|Hm]]; subst m; eexists; intros s;
    rewrite (reducer_operation _ _ _ _ _ _ Hsplit Hd);
    unfold handleResource, handleStart, handleFailure, handleClear, lower;
    rewrite set_status_id;
    cbn [head seg_is String.eqb Ascii.eqb Bool.eqb]; run; reflexivity.
Qed.

Lemma factory_contract_witness :
  ∃ red, resourceReducer "users" no_options = inr red ∧
         resourceReducer "USERS" no_options = inr red ∧
         red None (Sample.action "USERS/FETCH/START" VUndef)
         = red (Some initialResourceState) (Sample.action "USERS/FETCH/START" VUndef).
Proof.
  destruct (factory_contract "users" no_options) as [_ Hred].
  destruct Hred as (red & Hfactory & _ & Hnone & Hupper & _); [discriminate|].
  exists red. split_and!; [exact Hfactory | exact Hupper | apply Hnone].
Defined.

(** X2. A START action under an operation domain returns a state and throws
    and emits nothing.  It writes the status of that operation (the domain
    lower-cased): pending and busy true, success null, the action's
    payload, no [id] field.  It does so for any domain, known or not, also
    when a status is in flight already, with one exception: under the
    domain [__PROTO__] no status is written when the status object does
    not own the key [__proto__].  Every other status and every other field
    of the slice is kept. *)
Theorem start_sets_status (name : string) (o : Options) (s : Resource) (a : Action.t)
    (d : string) (rest : list string) :
  split (Action.type a) = name :: d :: "START" :: rest →
  operation_domain d →
  ∃ s', reducer name o s a = ([], inr s') ∧
    (toLowerCase d ≠ "__proto__" ∨ is_Some (status s !! toLowerCase d) →
     status s' !! toLowerCase d
     = Some (Status.mk (Some true) None None (Action.payload a) true)) ∧
    (toLowerCase d = "__proto__" → status s !! "__proto__" = None → status s' = status s) ∧
    (∀ k, k ≠ toLowerCase d → status s' !! k = status s !! k) ∧
    results s' = results s ∧ entities s' = entities s ∧
    meta s' = meta s ∧ changeset s' = changeset s.
Proof.
  intros Hsplit Hd. rewrite (reducer_operation _ _ _ _ _ _ Hsplit Hd).
  unfold handleResource, handleStart, lower. cbn [head seg_is String.eqb Ascii.eqb Bool.eqb].
  run. eexists. split; [reflexivity|]. cbn [status results entities meta changeset set_status].
  split_and!; [| | |done..].
  - intros Hk. rewrite (assign_stored _ _ _ Hk). by rewrite lookup_insert_eq.
  - intros -> Hown. by apply assign_proto.
  - intros k Hne. by apply lookup_assign_ne.
Qed.

Lemma start_sets_status_witness :
  (∃ s', reducer "USERS" defaultOptions Sample.fetched (Sample.action "USERS/FETC/START" (VNum 7))
         = ([], inr s') ∧
         status s' !! "fetc" = Some (Status.mk (Some true) None None (VNum 7) true) ∧
         status s' !! "fetch" = status Sample.fetched !! "fetch") ∧
  (∃ s', reducer "USERS" defaultOptions Sample.fetched
           (Sample.action "USERS/__PROTO__/START" (VNum 7))
         = ([], inr s') ∧
         status s' = status Sample.fetched).
Proof.
  split.
  - destruct (start_sets_status "USERS" defaultOptions Sample.fetched
                (Sample.action "USERS/FETC/START" (VNum 7)) "FETC" [])
      as (s' & Hrun & Hst & _ & Hother & _); [reflexivity | repeat split; discriminate |].
    exists s'. split_and!; [exact Hrun | apply Hst; left; discriminate | by apply Hother].
  - destruct (start_sets_status "USERS" defaultOptions Sample.fetched
                (Sample.action "USERS/__PROTO__/START" (VNum 7)) "__PROTO__" [])
      as (s' & Hrun & _ & Hproto & _); [reflexivity | repeat split; discriminate |].
    exists s'. split; [exact Hrun | by apply Hproto].
Defined.

(** X3. A RESET action under an operation domain returns a state and throws
    and emits nothing.  It puts the status of that operation back to the
    default status (pending, success and payload null, busy false, [id]
    null), except that under the domain [__PROTO__] no status is written
    when the status object does not own the key [__proto__].  It changes
    nothing else: the other statuses, [results], [entities], [meta] and
    [changeset] are kept. *)
Theorem reset_restores_default_status (name : string) (o : Options) (s : Resource)
    (a : Action.t) (d : string) (rest : list string) :
  split (Action.type a) = name :: d :: "RESET" :: rest →
  operation_domain d →
  ∃ s', reducer name o s a = ([], inr s') ∧
    (toLowerCase d ≠ "__proto__" ∨ is_Some (status s !! toLowerCase d) →
     status s' !! toLowerCase d = Some defaultStatus) ∧
    (toLowerCase d = "__proto__" → status s !! "__proto__" = None → status s' = status s) ∧
    (∀ k, k ≠ toLowerCase d → status s' !! k = status s !! k) ∧
    results s' = results s ∧ entities s' = entities s ∧
    meta s' = meta s ∧ changeset s' = changeset s.
Proof.
  intros Hsplit Hd. rewrite (reducer_operation _ _ _ _ _ _ Hsplit Hd).
  unfold handleResource, handleClear, lower. cbn [head seg_is String.eqb Ascii.eqb Bool.eqb].
  run. eexists. split; [reflexivity|]. cbn [status results entities meta changeset set_status].
  split_and!; [| | |done..].
  - intros Hk. rewrite (assign_stored _ _ _ Hk). by rewrite lookup_insert_eq.
  - intros -> Hown. by apply assign_proto.
  - intros k Hne. by apply lookup_assign_ne.
Qed.

Lemma reset_restores_default_status_witness :
  (∃ s', reducer "USERS" defaultOptions Sample.fetched (Sample.action "USERS/FETCH/RESET" VUndef)
         = ([], inr s') ∧
         status s' !! "fetch" = Some defaultStatus ∧
         results s' = results Sample.fetched) ∧
  (∃ s', reducer "USERS" defaultOptions Sample.fetched
           (Sample.action "USERS/__PROTO__/RESET" VUndef)
         = ([], inr s') ∧
         status s' = status Sample.fetched).
Proof.
  split.
  - destruct (reset_restores_default_status "USERS" defaultOptions Sample.fetched
                (Sample.action "USERS/FETCH/RESET" VUndef) "FETCH" [])
      as (s' & Hrun & Hst & _ & _ & Hres & _); [reflexivity | repeat split; discriminate |].
    exists s'. split_and!; [exact Hrun | apply Hst; left; discriminate | exact Hres].
  - destruct (reset_restores_default_status "USERS" defaultOptions Sample.fetched
                (Sample.action "USERS/__PROTO__/RESET" VUndef) "__PROTO__" [])
      as (s' & Hrun & _ & Hproto & _); [reflexivity | repeat split; discriminate |].
    exists s'. split; [exact Hrun | by apply Hproto].
Defined.

(** X4. The last writer of a status wins.  After a START, FAILURE or RESET of
    an operation, a further START, FAILURE or RESET of the same operation,
    or a SUCCESS of it with a truthy payload, gives exactly what it gives
    without the earlier action: a START followed by a SUCCESS leaves the
    state of the SUCCESS alone, a second START overwrites the first. *)
Theorem status_last_writer_wins (name : string) (o : Options) (s s1 : Resource)
    (a1 a2 : Action.t) (d m1 m2 : string) (rest1 rest2 : list string) (w1 : list string) :
  split (Action.type a1) = name :: d :: m1 :: rest1 →
  split (Action.type a2) = name :: d :: m2 :: rest2 →
  operation_domain d →
  writes_status m1 →
  writes_status m2 ∨ (m2 = "SUCCESS" ∧ truthy (Action.payload a2) = true) →
  reducer name o s a1 = (w1, inr s1) →
  reducer name o s1 a2 = reducer name o s a2.
Proof.
  intros Hsplit1 Hsplit2 Hd Hm1 Hm2.
  destruct (status_writer _ o _ _ _ _ Hsplit1 Hd Hm1) as [st1 Hrun1].
  rewrite Hrun1. intros [= _ <-].
  destruct Hm2 as [Hm2|[-> Hp]].
  - destruct (status_writer _ o _ _ _ _ Hsplit2 Hd Hm2) as [st2 Hrun2].
    rewrite !Hrun2. unfold set_status. simpl. by rewrite assign_assign.
  - rewrite !(reducer_success _ _ _ _ _ _ Hsplit2 Hd), !(handleSuccess_truthy _ _ _ _ Hp).
    simpl. by rewrite insert_assign.
Qed.

Lemma status_last_writer_wins_witness :
  ∃ s1, reducer "USERS" defaultOptions initialResourceState (Sample.action "USERS/FETCH/START" VUndef)
        = ([], inr s1) ∧
        reducer "USERS" defaultOptions s1
          (Sample.action "USERS/FETCH/SUCCESS" (VArr 0 [Sample.alice; Sample.bob]))
        = ([], inr Sample.fetched).
Proof.
  eexists. split; [reflexivity|].
  rewrite (status_last_writer_wins "USERS" defaultOptions initialResourceState _
             (Sample.action "USERS/FETCH/START" VUndef)
             (Sample.action "USERS/FETCH/SUCCESS" (VArr 0 [Sample.alice; Sample.bob]))
             "FETCH" "START" "SUCCESS" [] [] [] eq_refl eq_refl);
    [reflexivity | repeat split; discriminate | by left | by right | reflexivity].
Defined.

(** X5. A SUCCESS action with a truthy payload under an operation domain,
    when the reducer returns, has written the status of that operation:
    pending and busy false, success true, the action's payload (not the
    data [entityReducer] made of it), no [id] field.  The other statuses
    and [changeset] are kept. *)
Theorem success_sets_status (name : string) (o : Options) (s s' : Resource) (a : Action.t)
    (d : string) (rest w : list string) :
  split (Action.type a) = name :: d :: "SUCCESS" :: rest →
  operation_domain d →
  truthy (Action.payload a) = true →
  reducer name o s a = (w, inr s') →
  status s' !! toLowerCase d
    = Some (Status.mk (Some false) None (Some true) (Action.payload a) false) ∧
  (∀ k, k ≠ toLowerCase d → status s' !! k = status s !! k) ∧
  changeset s' = changeset s.
Proof.
  intros Hsplit Hd Hp.
  rewrite (reducer_success _ _ _ _ _ _ Hsplit Hd), (handleSuccess_truthy _ _ _ _ Hp).
  intros (w1 & store & w2 & _ & [= _ <-] & _)%bind_inr_inv. simpl.
  split; [by rewrite lookup_insert_eq|].
  split; [|done]. intros k Hk. by rewrite lookup_insert_ne.
Qed.

Lemma success_sets_status_witness :
  status Sample.updated !! "update"
  = Some (Status.mk (Some false) None (Some true) Sample.alice_2 false) ∧
  (∀ k, k ≠ "update" → status Sample.updated !! k = status Sample.fetched !! k) ∧
  changeset Sample.updated = changeset Sample.fetched.
Proof.
  apply (success_sets_status "USERS" defaultOptions Sample.fetched Sample.updated
           (Sample.action "USERS/UPDATE/SUCCESS" Sample.alice_2) "UPDATE" [] []);
    [reflexivity | repeat split; discriminate | reflexivity | reflexivity].
Defined.

(** X6. Under an operation domain an action whose method is missing or is
    none of START, SUCCESS, FAILURE and RESET is ignored: the reducer
    returns the given state and emits nothing. *)
Theorem unknown_method_ignored (name : string) (o : Options) (s : Resource) (a : Action.t)
    (d : string) (rest : list string) :
  split (Action.type a) = name :: d :: rest →
  operation_domain d →
  (∀ m, head rest = Some m → m ∉ resource_methods) →
  reducer name o s a = ([], inr s).
Proof.
  intros Hsplit Hd Hm. rewrite (reducer_operation _ _ _ _ _ _ Hsplit Hd).
  unfold handleResource.
  assert (∀ lit, lit ∈ resource_methods → seg_is (head rest) lit = false) as Hno.
  { intros lit Hlit. apply seg_is_false. intros Heq. by apply (Hm lit). }
  rewrite !Hno; [done|unfold resource_methods; set_solver..].
Qed.

Lemma unknown_method_ignored_witness :
  reducer "USERS" defaultOptions Sample.fetched (Sample.action "USERS/FETCH" Sample.alice)
  = ([], inr Sample.fetched) ∧
  reducer "USERS" defaultOptions Sample.fetched (Sample.action "USERS/FETCH/success" Sample.alice)
  = ([], inr Sample.fetched).
Proof.
  split.
  - apply (unknown_method_ignored _ _ _ _ "FETCH" []);
      [reflexivity | repeat split; discriminate | discriminate].
  - apply (unknown_method_ignored _ _ _ _ "FETCH" ["success"]);
      [reflexivity | repeat split; discriminate |].
    intros m [= <-]. unfold resource_methods.
    rewrite !not_elem_of_cons. split_and!; [discriminate..|apply not_elem_of_nil].
Defined.

(** ** Further properties: the changeset manager *)

Lemma reducer_changeset (name : string) (o : Options) (s : Resource) (a : Action.t)
    (rest : list string) :
  split (Action.type a) = name :: "CHANGESET" :: rest →
  reducer name o s a = handleChangeset (Some "CHANGESET") (head rest) a s o.
Proof.
  intros Hsplit. unfold reducer. rewrite Hsplit. simpl.
  rewrite String.eqb_refl. by destruct rest.
Qed.





(** X8. A CHANGESET RESET returns a state and throws and emits nothing.  It
    replaces the buffer of the form of the action by an empty one, creating
    it when the form had none, except that under the form [__proto__]
    nothing is stored when the changeset does not own that key.  It keeps
    the buffers of the other forms and every other field of the slice. *)
Theorem changeset_reset (name : string) (o : Options) (s : Resource) (a : Action.t)
    (form : string) (rest : list string) :
  split (Action.type a) = name :: "CHANGESET" :: "RESET" :: rest →
  changeset_form a = ([], inr form) →
  ∃ s', reducer name o s a = ([], inr s') ∧
    (form ≠ "__proto__" ∨ is_Some (changeset s !! form) → changeset s' !! form = Some ∅) ∧
    (form = "__proto__" → changeset s !! "__proto__" = None → changeset s' = changeset s) ∧
    (∀ other, other ≠ form → changeset s' !! other = changeset s !! other) ∧
    results s' = results s ∧ entities s' = entities s ∧
    meta s' = meta s ∧ status s' = status s.
Proof.
  intros Hsplit Hform. rewrite (reducer_changeset _ _ _ _ _ Hsplit).
  unfold handleChangeset. rewrite Hform. run. cbn [head seg_is String.eqb Ascii.eqb Bool.eqb].
  eexists. split; [reflexivity|].
  cbn [status results entities meta changeset set_changeset].
  split_and!; [| | |done..].
  - intros Hstored. rewrite (assign_stored _ _ _ Hstored). by rewrite lookup_insert_eq.
  - intros -> Hown. by apply assign_proto.
  - intros other Hother. by apply lookup_assign_ne.
Qed.

Lemma changeset_reset_witness :
  (∃ s', reducer "USERS" defaultOptions initialResourceState
           (Action.mk "USERS/CHANGESET/RESET" VUndef (Sample.object 6 [("form", VStr "A")]))
         = ([], inr s') ∧
         changeset s' !! "A" = Some ∅) ∧
  (∃ s', reducer "USERS" defaultOptions initialResourceState
           (Action.mk "USERS/CHANGESET/RESET" VUndef (Sample.object 6 [("form", VStr "__proto__")]))
         = ([], inr s') ∧
         changeset s' = ∅).
Proof.
  split.
  - destruct (changeset_reset "USERS" defaultOptions initialResourceState
                (Action.mk "USERS/CHANGESET/RESET" VUndef (Sample.object 6 [("form", VStr "A")]))
                "A" [])
      as (s' & Hrun & Hform & _); [reflexivity | reflexivity |].
    exists s'. split; [exact Hrun | apply Hform; left; discriminate].
  - destruct (changeset_reset "USERS" defaultOptions initialResourceState
                (Action.mk "USERS/CHANGESET/RESET" VUndef
                   (Sample.object 6 [("form", VStr "__proto__")]))
                "__proto__" [])
      as (s' & Hrun & _ & Hproto & _); [reflexivity | reflexivity |].
    exists s'. split; [exact Hrun | by apply Hproto].
Defined.



Lemma pretty_N_go_not_form (x : N) (s : string) :
  s ≠ "form" → pretty_N_go x s ≠ "form".
Proof.
  revert s. induction (N.lt_wf_0 x) as [x _ IH]; intros s Hs.
  assert (x = 0 ∨ 0 < x)%N as [->|Hx] by lia.
  - by rewrite pretty_N_go_0.
  - rewrite pretty_N_go_step by done. apply IH.
    { by apply N.div_lt. }
    unfold pretty_N_char. by repeat case_match.
Qed.

Lemma index_of_key_form (len : nat) : index_of_key "form" len = None.
Proof.
  unfold index_of_key. generalize 0%nat. induction len as [|len IH]; intros start; simpl; [done|].
  rewrite IH. destruct (String.eqb_spec (pretty start) "form") as [Heq|]; [|done].
  exfalso. revert Heq. unfold pretty, pretty_nat, pretty, pretty_N.
  case_decide; [discriminate|]. by apply pretty_N_go_not_form.
Qed.

(** X10. The form a CHANGESET action addresses.  It is 'default' when the
    action has no meta, when its meta is a boolean, a number, a string or
    an array, and when its meta is an object without a [form] field or
    with an undefined one; otherwise it is the property key of
    [meta.form].  A [null] meta makes every CHANGESET action, whatever its
    method, end in a [TypeError]. *)
Theorem changeset_form_selection (a : Action.t) :
  match Action.meta a with
  | VNull =>
      ∀ name o s rest, split (Action.type a) = name :: "CHANGESET" :: rest →
                       reducer name o s a = ([], inl TypeError)
  | VObj _ fields =>
      changeset_form a
      = ([], inr match fields !! "form" with
                 | None | Some VUndef => "default"
                 | Some form => to_key form
                 end)
  | _ => changeset_form a = ([], inr "default")
  end.
Proof.
  destruct (Action.meta a) as [| |b|n|str|ref xs|ref fields] eqn:Hmeta.
  - unfold changeset_form. by rewrite Hmeta.
  - intros name o s rest Hsplit. rewrite (reducer_changeset _ _ _ _ _ Hsplit).
    unfold handleChangeset, changeset_form. by rewrite Hmeta.
  - unfold changeset_form. by rewrite Hmeta.
  - unfold changeset_form. by rewrite Hmeta.
  - unfold changeset_form. rewrite Hmeta. simpl. by rewrite index_of_key_form.
  - unfold changeset_form. rewrite Hmeta. simpl. by rewrite index_of_key_form.
  - unfold changeset_form. rewrite Hmeta. simpl.
    destruct (fields !! "form") as [[]|]; done.
Qed.

(** X11. Under the CHANGESET domain an action whose method is missing or is
    none of MERGE, REMOVE and RESET is ignored, provided its meta is not
    [null]: the reducer returns the given state and emits nothing. *)
Theorem changeset_unknown_method_ignored (name : string) (o : Options) (s : Resource)
    (a : Action.t) (rest : list string) :
  split (Action.type a) = name :: "CHANGESET" :: rest →
  Action.meta a ≠ VNull →
  (∀ m, head rest = Some m → m ∉ changeset_methods) →
  reducer name o s a = ([], inr s).
Proof.
  intros Hsplit Hmeta Hm. rewrite (reducer_changeset _ _ _ _ _ Hsplit).
  unfold handleChangeset.
  pose proof (changeset_form_cases a) as Hform.
  destruct (strict_eq (Action.meta a) VNull) eqn:Hnull.
  { apply strict_eq_identity in Hnull. by destruct (Action.meta a). }
  destruct Hform as [form ->]. run.
  assert (∀ lit, lit ∈ changeset_methods → seg_is (head rest) lit = false) as Hno.
  { intros lit Hlit. apply seg_is_false. intros Heq. by apply (Hm lit). }
  rewrite !Hno; [done|unfold changeset_methods; set_solver..].
Qed.

Lemma changeset_unknown_method_ignored_witness :
  reducer "USERS" defaultOptions Sample.fetched
    (Sample.action "USERS/CHANGESET/SET" (Sample.object 5 [("name", VStr "x")]))
  = ([], inr Sample.fetched).
Proof.
  apply (changeset_unknown_method_ignored _ _ _ _ ["SET"]); [reflexivity | discriminate |].
  intros m [= <-]. unfold changeset_methods.
  rewrite !not_elem_of_cons. split_and!; [discriminate..|apply not_elem_of_nil].
Defined.

(** X12. With the default [changesetReducer] a CHANGESET MERGE is
    idempotent: applied to the state it returned, the same action returns
    that state again. *)
Theorem changeset_merge_idempotent (name : string) (o : Options) (s s1 : Resource)
    (a : Action.t) (rest w : list string) :
  changesetReducer o = changesetReducer defaultOptions →
  split (Action.type a) = name :: "CHANGESET" :: "MERGE" :: rest →
  reducer name o s a = (w, inr s1) →
  reducer name o s1 a = ([], inr s1).
Proof.
  intros Ho Hsplit. rewrite !(reducer_changeset _ _ _ _ _ Hsplit).
  unfold handleChangeset. rewrite Ho.
  intros (w1 & form & w2 & Hform & Hrun & ->)%bind_inr_inv.
  rewrite Hform. cbn [head seg_is String.eqb Ascii.eqb Bool.eqb] in *.
  injection Hrun as _ <-.
  pose proof (changeset_form_cases a) as Hw. rewrite Hform in Hw.
  destruct (strict_eq (Action.meta a) VNull); [discriminate|].
  destruct Hw as [? [= -> _]]. run.
  unfold set_changeset. cbn [results entities meta status changeset].
  destruct (assign_cases form
              (spread (Action.payload a) ∪ default ∅ (changeset s !! form))
              (changeset s)) as [[_ Hstored]|(-> & Hnone & _)].
  - rewrite Hstored, lookup_insert_eq, assign_stored, insert_insert_eq
      by (right; rewrite lookup_insert_eq; eauto).
    simpl. by rewrite (assoc_L (∪)), (idemp_L (∪)).
  - by rewrite !(assign_proto _ _ Hnone).
Qed.

Lemma changeset_merge_idempotent_witness :
  ∃ s1, reducer "USERS" defaultOptions Sample.fetched
          (Sample.action "USERS/CHANGESET/MERGE" (Sample.object 5 [("name", VStr "x")]))
        = ([], inr s1) ∧
        reducer "USERS" defaultOptions s1
          (Sample.action "USERS/CHANGESET/MERGE" (Sample.object 5 [("name", VStr "x")]))
        = ([], inr s1).
Proof.
  eexists. split; [reflexivity|].
  eapply (changeset_merge_idempotent "USERS" defaultOptions Sample.fetched _
            (Sample.action "USERS/CHANGESET/MERGE" (Sample.object 5 [("name", VStr "x")]))
            [] []); reflexivity.
Defined.

Lemma changeset_form_selection_witness :
  reducer "USERS" defaultOptions Sample.fetched
    (Action.mk "USERS/CHANGESET/RESET" VUndef VNull)
  = ([], inl TypeError).
Proof.
  apply (changeset_form_selection (Action.mk "USERS/CHANGESET/RESET" VUndef VNull)
           "USERS" defaultOptions Sample.fetched ["RESET"]).
  reflexivity.
Defined.

(** ** Further properties: the entity merger *)

Lemma reducer_update (name : string) (o : Options) (s s' : Resource) (a : Action.t)
    (d : string) (rest w : list string) :
  split (Action.type a) = name :: d :: "SUCCESS" :: rest →
  operation_domain d →
  d ≠ "DESTROY" →
  truthy (Action.payload a) = true →
  reducer name o s a = (w, inr s') →
  forEach (update_element o)
    (to_array (entityReducer o d (Action.payload a) (Action.meta a)))
    (results s, entities s)
  = (w, inr (results s', entities s')).
Proof.
  intros Hsplit Hd Hnd Hp.
  rewrite (reducer_success _ _ _ _ _ _ Hsplit Hd), (handleSuccess_truthy _ _ _ _ Hp).
  destruct (String.eqb_spec d "DESTROY"); [done|].
  intros (w1 & [rs es] & w2 & Hrun & [= <- <-] & ->)%bind_inr_inv.
  by rewrite app_nil_r.
Qed.


Lemma element_id_truthy (o : Options) (obj id : value) :
  element_id o false obj = Some id → truthy id = true.
Proof.
  unfold element_id. simpl. destruct (get_prop obj (idAttribute o)) as [w [e|x]]; [done|].
  destruct (truthy x) eqn:Hx; [by intros [= <-]|done].
Qed.

(** An update fold appends to [results] and adds keys to [entities]. *)
Lemma update_fold_grows (o : Options) (data : list value) (rs rs' : list value)
    (es es' : gmap string value) (w : list string) :
  forEach (update_element o) data (rs, es) = (w, inr (rs', es')) →
  ∃ added, rs' = rs ++ added ∧
    Forall (λ id, truthy id = true ∧ indexOf id rs = None) added ∧
    (∀ k, is_Some (es !! k) → is_Some (es' !! k)).
Proof.
  revert rs es w. induction data as [|obj data IH]; intros rs es w.
  - intros [= <- <- <-]. exists []. by rewrite app_nil_r.
  - intros (w1 & [rs2 es2] & w2 & Hobj & Hrest & ->)%forEach_cons_inv.
    apply update_element_inv in Hobj.
    destruct (IH _ _ _ Hrest) as (added & -> & Hadded & Hkeys).
    destruct (element_id o false obj) as [id|] eqn:Hid.
    + destruct Hobj as [-> ->]. destruct (indexOf id rs) as [i|] eqn:Hidx.
      * exists added. split_and!; [done..|].
        intros k Hk. by apply Hkeys, assign_is_Some.
      * exists (id :: added). rewrite <- app_assoc. split_and!; [done| |].
        -- apply Forall_cons. split; [split; [by eapply element_id_truthy|done]|].
           eapply Forall_impl; [exact Hadded|]. intros x [Hx Hnone]. split; [done|].
           apply indexOf_None. apply indexOf_None in Hnone.
           rewrite fmap_app in Hnone. by apply not_elem_of_app in Hnone as [? _].
        -- intros k Hk. by apply Hkeys, assign_is_Some.
    + destruct Hobj as [-> ->]. by exists added.
Qed.

(** X13. An update never removes or reorders: after a SUCCESS with a truthy
    payload under an operation domain other than DESTROY, the old
    [results] is a prefix of the new one, every identifier that was added
    is truthy and was not in the old [results], and every key of the old
    [entities] is a key of the new one. *)
Theorem update_extends_store (name : string) (o : Options) (s s' : Resource) (a : Action.t)
    (d : string) (rest w : list string) :
  split (Action.type a) = name :: d :: "SUCCESS" :: rest →
  operation_domain d →
  d ≠ "DESTROY" →
  truthy (Action.payload a) = true →
  reducer name o s a = (w, inr s') →
  ∃ added, results s' = results s ++ added ∧
    Forall (λ id, truthy id = true ∧ indexOf id (results s) = None) added ∧
    (∀ k, is_Some (entities s !! k) → is_Some (entities s' !! k)).
Proof.
  intros Hsplit Hd Hnd Hp Hrun.
  by apply (update_fold_grows o _ _ _ _ _ _ (reducer_update _ _ _ _ _ _ _ _ Hsplit Hd Hnd Hp Hrun)).
Qed.

Lemma update_extends_store_witness :
  ∃ added, results Sample.updated = results Sample.fetched ++ added ∧
    Forall (λ id, truthy id = true ∧ indexOf id (results Sample.fetched) = None) added ∧
    (∀ k, is_Some (entities Sample.fetched !! k) → is_Some (entities Sample.updated !! k)).
Proof.
  apply (update_extends_store "USERS" defaultOptions Sample.fetched Sample.updated
           (Sample.action "USERS/UPDATE/SUCCESS" Sample.alice_2) "UPDATE" [] []);
    [reflexivity | repeat split; discriminate | discriminate | reflexivity | reflexivity].
Defined.

Lemma update_element_keeps (o : Options) (obj : value) (rs rs' : list value)
    (es es' : gmap string value) (w : list string) (k : string) :
  update_element o obj (rs, es) = (w, inr (rs', es')) →
  is_Some (es !! k) → is_Some (es' !! k).
Proof.
  intros Hobj%update_element_inv Hk. destruct (element_id o false obj) as [id|].
  - destruct Hobj as [_ ->]. by apply assign_is_Some.
  - by destruct Hobj as [_ ->].
Qed.

Lemma update_fold_stores (o : Options) (data : list value) (rs rs' : list value)
    (es es' : gmap string value) (w : list string) (obj id : value) :
  forEach (update_element o) data (rs, es) = (w, inr (rs', es')) →
  obj ∈ data →
  element_id o false obj = Some id →
  is_Some (indexOf id rs') ∧
  (to_key id ≠ "__proto__" ∨ is_Some (es !! "__proto__") → is_Some (es' !! to_key id)).
Proof.
  revert rs es w. induction data as [|x data IH]; intros rs es w Hrun Hobj Hid.
  - by apply elem_of_nil in Hobj.
  - apply forEach_cons_inv in Hrun as (w1 & [rs2 es2] & w2 & Hx & Hrest & ->).
    apply elem_of_cons in Hobj as [<-|Hobj].
    + apply update_element_inv in Hx. rewrite Hid in Hx. destruct Hx as [-> ->].
      destruct (update_fold_grows _ _ _ _ _ _ _ Hrest) as (added & -> & _ & Hkeys).
      split.
      * destruct (indexOf id (_ ++ added)) eqn:Hnone; [eauto|].
        apply indexOf_None in Hnone. rewrite fmap_app in Hnone.
        apply not_elem_of_app in Hnone as [Hnone _]. exfalso. apply Hnone.
        destruct (indexOf id rs) eqn:Hidx.
        -- destruct (decide (identity_of id ∈ identity_of <$> rs)) as [|Hno]; [done|].
           apply indexOf_None in Hno. congruence.
        -- rewrite fmap_app. apply elem_of_app. right. by apply list_elem_of_singleton.
      * intros Hstored. apply Hkeys. rewrite assign_stored, lookup_insert_eq; [eauto|].
        destruct Hstored as [Hne|Hown]; [by left|].
        destruct (decide (to_key id = "__proto__")) as [->|Hne]; [by right|by left].
    + destruct (IH _ _ _ Hrest Hobj Hid) as [Hres Hent]. split; [done|].
      intros [Hne|Hown]; apply Hent; [by left|right].
      by eapply update_element_keeps.
Qed.

Lemma update_fold_proto (o : Options) (data : list value) (rs rs' : list value)
    (es es' : gmap string value) (w : list string) :
  forEach (update_element o) data (rs, es) = (w, inr (rs', es')) →
  es !! "__proto__" = None → es' !! "__proto__" = None.
Proof.
  revert rs es w. induction data as [|x data IH]; intros rs es w.
  - by intros [= <- <- <-].
  - intros (w1 & [rs2 es2] & w2 & Hx & Hrest & ->)%forEach_cons_inv Hnone.
    apply (IH _ _ _ Hrest). apply update_element_inv in Hx.
    destruct (element_id o false x) as [id|]; destruct Hx as [_ ->]; [|done].
    destruct (decide (to_key id = "__proto__")) as [->|Hne].
    + by rewrite assign_proto.
    + by rewrite lookup_assign_ne.
Qed.

(** X14. An update stores every element that has a truthy identifier: after
    the SUCCESS, [results] holds an entry [===] to that identifier, and
    [entities] has its key, unless that key is [__proto__] and the old
    [entities] does not own it: an [entities] that does not own the key
    [__proto__] never gets it. *)
Theorem update_stores_identified (name : string) (o : Options) (s s' : Resource)
    (a : Action.t) (d : string) (rest w : list string) (obj id : value) :
  split (Action.type a) = name :: d :: "SUCCESS" :: rest →
  operation_domain d →
  d ≠ "DESTROY" →
  truthy (Action.payload a) = true →
  reducer name o s a = (w, inr s') →
  obj ∈ to_array (entityReducer o d (Action.payload a) (Action.meta a)) →
  get_prop obj (idAttribute o) = ([], inr id) →
  truthy id = true →
  is_Some (indexOf id (results s')) ∧
  (to_key id ≠ "__proto__" ∨ is_Some (entities s !! "__proto__") →
   is_Some (entities s' !! to_key id)) ∧
  (entities s !! "__proto__" = None → entities s' !! "__proto__" = None).
Proof.
  intros Hsplit Hd Hnd Hp Hrun Hobj Hget Hid.
  pose proof (reducer_update _ _ _ _ _ _ _ _ Hsplit Hd Hnd Hp Hrun) as Hfold.
  destruct (update_fold_stores o _ _ _ _ _ _ obj id Hfold Hobj) as [Hres Hent].
  { unfold element_id. simpl. by rewrite Hget, Hid. }
  split_and!; [done..|]. by apply (update_fold_proto _ _ _ _ _ _ _ Hfold).
Qed.

Lemma update_stores_identified_witness :
  (is_Some (indexOf (VNum 2) (results Sample.fetched)) ∧
   is_Some (entities Sample.fetched !! "2")) ∧
  ∃ s', reducer "USERS" defaultOptions initialResourceState
          (Sample.action "USERS/FETCH/SUCCESS" Sample.proto)
        = ([], inr s') ∧
        is_Some (indexOf (VStr "__proto__") (results s')) ∧
        entities s' !! "__proto__" = None.
Proof.
  split.
  - destruct (update_stores_identified "USERS" defaultOptions initialResourceState
                Sample.fetched
                (Sample.action "USERS/FETCH/SUCCESS" (VArr 0 [Sample.alice; Sample.bob]))
                "FETCH" [] [] Sample.bob (VNum 2)) as (Hres & Hent & _);
      [reflexivity | repeat split; discriminate | discriminate | reflexivity | reflexivity
      | | reflexivity | reflexivity |].
    + simpl. apply elem_of_cons. right. by apply list_elem_of_singleton.
    + split; [exact Hres | apply Hent; left; discriminate].
  - assert (∃ s', reducer "USERS" defaultOptions initialResourceState
                    (Sample.action "USERS/FETCH/SUCCESS" Sample.proto)
                  = ([], inr s')) as (s' & Hrun)
      by (eexists; reflexivity).
    exists s'. split; [exact Hrun|].
    destruct (update_stores_identified "USERS" defaultOptions initialResourceState s'
                (Sample.action "USERS/FETCH/SUCCESS" Sample.proto)
                "FETCH" [] [] Sample.proto (VStr "__proto__")) as (Hres & _ & Hnone);
      [reflexivity | repeat split; discriminate | discriminate | reflexivity | exact Hrun
      | | reflexivity | reflexivity |].
    + by apply list_elem_of_singleton.
    + split; [exact Hres | by apply Hnone].
Defined.

Lemma update_fold_frame (o : Options) (data : list value) (rs rs' : list value)
    (es es' : gmap string value) (w : list string) (k : string) :
  forEach (update_element o) data (rs, es) = (w, inr (rs', es')) →
  (∀ obj id, obj ∈ data → element_id o false obj = Some id → to_key id ≠ k) →
  es' !! k = es !! k.
Proof.
  revert rs es w. induction data as [|x data IH]; intros rs es w.
  - by intros [= <- <- <-].
  - intros (w1 & [rs2 es2] & w2 & Hx & Hrest & ->)%forEach_cons_inv Hk.
    rewrite (IH _ _ _ Hrest) by (intros obj id Hobj; apply Hk; by right).
    apply update_element_inv in Hx.
    destruct (element_id o false x) as [id|] eqn:Hid.
    + destruct Hx as [_ ->]. apply lookup_assign_ne. eapply Hk; [by left|done].
    + by destruct Hx as [_ ->].
Qed.

(** X15. An update leaves alone every entity whose key none of its elements
    carries: after a SUCCESS with a truthy payload under an operation
    domain other than DESTROY, [entities] is unchanged under each key that
    is not the property key of the truthy identifier of some element. *)
Theorem update_keeps_other_entities (name : string) (o : Options) (s s' : Resource)
    (a : Action.t) (d : string) (rest w : list string) (k : string) :
  split (Action.type a) = name :: d :: "SUCCESS" :: rest →
  operation_domain d →
  d ≠ "DESTROY" →
  truthy (Action.payload a) = true →
  reducer name o s a = (w, inr s') →
  (∀ obj id, obj ∈ to_array (entityReducer o d (Action.payload a) (Action.meta a)) →
             element_id o false obj = Some id → to_key id ≠ k) →
  entities s' !! k = entities s !! k.
Proof.
  intros Hsplit Hd Hnd Hp Hrun Hk.
  eapply update_fold_frame; [by eapply reducer_update|done].
Qed.

Lemma update_keeps_other_entities_witness :
  entities Sample.updated !! "2" = entities Sample.fetched !! "2".
Proof.
  apply (update_keeps_other_entities "USERS" defaultOptions Sample.fetched Sample.updated
           (Sample.action "USERS/UPDATE/SUCCESS" Sample.alice_2) "UPDATE" [] []);
    [reflexivity | repeat split; discriminate | discriminate | reflexivity | reflexivity |].
  intros obj id ->%list_elem_of_singleton [= <-]. discriminate.
Defined.

(** X16. What an update stores under a key.  The elements of the data are
    objects, and neither the identifier field nor the key is the name of a
    member of [Object.prototype].  When an element has a truthy identifier
    and no later element of the data carries the same key, [entities] ends
    with [onUpdate(prev, element)] under that key; when no earlier element
    carries the key or the key [__proto__] either, [prev] is the entity the
    old state had there, or [undefined].  With an [onUpdate] that returns
    its second argument, as the default does, the element itself is
    stored: the last element under a key wins. *)
Theorem update_last_element_wins (name : string) (o : Options) (s s' : Resource)
    (a : Action.t) (d : string) (rest w : list string) (pre post : list value)
    (obj id : value) :
  split (Action.type a) = name :: d :: "SUCCESS" :: rest →
  operation_domain d →
  d ≠ "DESTROY" →
  truthy (Action.payload a) = true →
  reducer name o s a = (w, inr s') →
  to_array (entityReducer o d (Action.payload a) (Action.meta a)) = pre ++ obj :: post →
  Forall (λ x, is_object x = true) (pre ++ obj :: post) →
  idAttribute o ∉ object_prototype_members →
  identifier o obj = Some id →
  to_key id ∉ object_prototype_members →
  (∀ x id', x ∈ post → identifier o x = Some id' → to_key id' ≠ to_key id) →
  ∃ prev, entities s' !! to_key id = Some (onUpdate o prev obj) ∧
    ((∀ x id', x ∈ pre → identifier o x = Some id' →
               to_key id' ≠ to_key id ∧ to_key id' ≠ "__proto__") →
     prev = default VUndef (entities s !! to_key id)) ∧
    ((∀ p next, onUpdate o p next = next) → entities s' !! to_key id = Some obj).
Proof.
  intros Hsplit Hd Hnd Hp Hrun Hdata Hobjects _ Hid Hkey Hpost.
  assert (∀ x, is_object x = true → element_id o false x = identifier o x) as Hsame.
  { intros [| | | | | |ref fields] Hx; try discriminate.
    unfold element_id, identifier. simpl.
    destruct (fields !! idAttribute o) as [v|]; simpl; [by destruct (truthy v)|done]. }
  apply Forall_app in Hobjects as [Hpre [Hobj Hposts]%Forall_cons].
  rewrite Forall_forall in Hpre, Hposts.
  pose proof (reducer_update _ _ _ _ _ _ _ _ Hsplit Hd Hnd Hp Hrun) as Hfold.
  rewrite Hdata, forEach_app in Hfold.
  apply bind_inr_inv in Hfold as (w1 & [rs1 es1] & w2 & Hfold1 & Hfold & ->).
  apply forEach_cons_inv in Hfold as (w3 & [rs2 es2] & w4 & Hx & Hrest & ->).
  apply update_element_inv in Hx. rewrite (Hsame _ Hobj), Hid in Hx. destruct Hx as [-> ->].
  rewrite (update_fold_frame _ _ _ _ _ _ _ _ Hrest)
    by (intros x id' Hin; rewrite (Hsame _ (Hposts _ Hin)); by apply Hpost).
  rewrite assign_stored, lookup_insert_eq
    by (left; intros Heq; apply Hkey; rewrite Heq; apply list_elem_of_here).
  eexists. split; [reflexivity|]. split.
  - intros Hnone. rewrite (update_fold_frame _ _ _ _ _ _ _ _ Hfold1); [done|].
    intros x id' Hin. rewrite (Hsame _ (Hpre _ Hin)). intros Hx. by apply (Hnone x id').
  - intros Hlast. by rewrite Hlast.
Qed.

Lemma update_last_element_wins_witness :
  ∃ w s', reducer "USERS" defaultOptions Sample.fetched
            (Sample.action "USERS/UPDATE/SUCCESS" (VArr 0 [Sample.alice; Sample.alice_2]))
          = (w, inr s') ∧
          entities s' !! "1" = Some Sample.alice_2.
Proof.
  destruct (reducer "USERS" defaultOptions Sample.fetched
              (Sample.action "USERS/UPDATE/SUCCESS" (VArr 0 [Sample.alice; Sample.alice_2])))
    as [w [e|s']] eqn:Hrun; [discriminate|].
  exists w, s'. split; [reflexivity|].
  destruct (update_last_element_wins "USERS" defaultOptions Sample.fetched s'
              (Sample.action "USERS/UPDATE/SUCCESS" (VArr 0 [Sample.alice; Sample.alice_2]))
              "UPDATE" [] w [Sample.alice] [] Sample.alice_2 (VNum 1))
    as (prev & _ & _ & Hlast);
    [reflexivity | repeat split; discriminate | discriminate | reflexivity | exact Hrun
    | reflexivity | by repeat constructor
    | intros Hin; by apply (bool_decide_pack _) in Hin
    | reflexivity
    | intros Hin; by apply (bool_decide_pack _) in Hin
    | by intros x id' Hx%elem_of_nil |].
  by apply Hlast.
Defined.









(** ** Further properties: what an action can touch *)

(** The routes of the reducer, by what they do to the state. *)
Lemma reducer_cases (name : string) (o : Options) (s s' : Resource) (a : Action.t)
    (w : list string) :
  reducer name o s a = (w, inr s') →
  s' = s ∨
  (split (Action.type a) !! 1%nat = Some "RESOURCE" ∧ s' = initialResourceState) ∨
  (split (Action.type a) !! 1%nat = Some "META" ∧ s' = set_meta ∅ s) ∨
  (split (Action.type a) !! 1%nat = Some "CHANGESET" ∧ ∃ cs, s' = set_changeset cs s) ∨
  (∃ d st, split (Action.type a) !! 1%nat = Some d ∧ operation_domain d ∧
           s' = set_status (assign (toLowerCase d) st) s) ∨
  (∃ d st, split (Action.type a) !! 1%nat = Some d ∧ operation_domain d ∧
           split (Action.type a) !! 2%nat = Some "SUCCESS" ∧
           changeset s' = changeset s ∧ status s' = <[toLowerCase d := st]> (status s)).
Proof.
  unfold reducer.
  set (name' := split (Action.type a) !! 0%nat).
  set (domain := split (Action.type a) !! 1%nat).
  set (method := split (Action.type a) !! 2%nat).
  assert (domain = None → method = None) as Hdm
    by (subst domain method; by destruct (split (Action.type a)) as [|?[|?[|]]]).
  clearbody name' domain method.
  destruct (seg_is name' name); [|intros [= <- <-]; by left].
  destruct (seg_is domain "RESOURCE") eqn:Hres.
  { apply seg_is_true in Hres. intros [= <- <-]. right; left. done. }
  destruct (seg_is domain "META") eqn:Hmeta.
  { apply seg_is_true in Hmeta. intros [= <- <-]. right; right; left. done. }
  destruct (seg_is domain "CHANGESET") eqn:Hcs.
  { apply seg_is_true in Hcs. unfold handleChangeset.
    intros (w1 & form & w2 & _ & Hrun & _)%bind_inr_inv.
    right; right; right; left. split; [done|].
    destruct (seg_is method "MERGE"); [injection Hrun as _ <-; by eexists|].
    destruct (seg_is method "REMOVE").
    { apply bind_inr_inv in Hrun as (? & cs & ? & _ & Hret & _).
      injection Hret as _ <-. by eexists. }
    destruct (seg_is method "RESET"); injection Hrun as _ <-; [by eexists|].
    exists (changeset s). by destruct s. }
  unfold handleResource. rewrite set_status_id.
  destruct domain as [d|]; [|rewrite (Hdm eq_refl); intros [= <- <-]; by left].
  assert (operation_domain d) as Hd.
  { apply seg_is_false in Hres, Hmeta, Hcs. repeat split; congruence. }
  destruct (seg_is method "START") eqn:Hstart.
  { unfold handleStart, lower. run. intros [= <- <-].
    right; right; right; right; left. by eexists _, _. }
  destruct (seg_is method "SUCCESS") eqn:Hsuccess.
  - apply seg_is_true in Hsuccess.
    destruct (truthy (Action.payload a)) eqn:Hp.
    + rewrite (handleSuccess_truthy _ _ _ _ Hp).
      intros (w1 & [rs es] & w2 & Hrun & Heq & ->)%bind_inr_inv.
      injection Heq as <- <-. do 5 right. by eexists _, _.
    + unfold handleSuccess. rewrite Hp. intros [= <- <-]. by left.
  - destruct (seg_is method "FAILURE").
    { unfold handleFailure, lower. run. intros [= <- <-].
      right; right; right; right; left. by eexists _, _. }
    destruct (seg_is method "RESET").
    { unfold handleClear, lower. run. intros [= <- <-].
      right; right; right; right; left. by eexists _, _. }
    intros [= <- <-]. by left.
Qed.

(** X19. What an action can touch.  [results] and [entities] are changed
    only by a whole-resource reset and by a SUCCESS; [meta] only by those
    two and by a META action; [changeset] only by a whole-resource reset
    and by a CHANGESET action; and a META or CHANGESET action changes no
    status. *)
Theorem action_frame (name : string) (o : Options) (s s' : Resource) (a : Action.t)
    (w : list string) :
  reducer name o s a = (w, inr s') →
  let domain := split (Action.type a) !! 1%nat in
  let method := split (Action.type a) !! 2%nat in
  (domain ≠ Some "RESOURCE" → method ≠ Some "SUCCESS" →
   results s' = results s ∧ entities s' = entities s) ∧
  (domain ≠ Some "RESOURCE" → domain ≠ Some "META" → method ≠ Some "SUCCESS" →
   meta s' = meta s) ∧
  (domain ≠ Some "RESOURCE" → domain ≠ Some "CHANGESET" → changeset s' = changeset s) ∧
  (domain = Some "META" ∨ domain = Some "CHANGESET" → status s' = status s).
Proof.
  intros Hrun domain method. subst domain method.
  apply reducer_cases in Hrun
    as [->|[[Hres ->]|[[Hmeta ->]|[[Hcs [cs ->]]|[(d & st & Hd & Hop & ->)
       |(d & st & Hd & Hop & Hsucc & Hchange & Hstatus)]]]]].
  - done.
  - split_and!; try done. intros [Hd|Hd]; congruence.
  - split_and!; done.
  - split_and!; done.
  - split_and!; try done. rewrite Hd. destruct Hop as (? & ? & ?). intros [[=]|[=]]; congruence.
  - split_and!; try done. rewrite Hd. destruct Hop as (? & ? & ?). intros [[=]|[=]]; congruence.
Qed.

Lemma action_frame_witness :
  ∃ s', reducer "USERS" defaultOptions Sample.fetched
          (Sample.action "USERS/UPDATE/FAILURE" (VStr "boom"))
        = ([], inr s') ∧
        results s' = results Sample.fetched ∧ entities s' = entities Sample.fetched ∧
        meta s' = meta Sample.fetched ∧ changeset s' = changeset Sample.fetched.
Proof.
  eexists. split; [reflexivity|].
  destruct (action_frame "USERS" defaultOptions Sample.fetched _
              (Sample.action "USERS/UPDATE/FAILURE" (VStr "boom")) [] eq_refl)
    as (Hstore & Hmeta & Hchangeset & _).
  destruct Hstore as [Hrs Hes]; [discriminate..|].
  split_and!; [exact Hrs | exact Hes | apply Hmeta; discriminate | apply Hchangeset; discriminate].
Defined.

(** X20. The statuses of the four operations are never lost: the initial
    state has a status for fetch, create, update and destroy, and a state
    that has them still has them after any action the reducer returns
    from.  Apart from a whole-resource reset, no action removes any
    status, a stray one included. *)
Theorem status_keys_persist (name : string) (o : Options) (s s' : Resource) (a : Action.t)
    (w : list string) :
  reducer name o s a = (w, inr s') →
  (∀ k, k ∈ status_keys → is_Some (status initialResourceState !! k)) ∧
  ((∀ k, k ∈ status_keys → is_Some (status s !! k)) →
   ∀ k, k ∈ status_keys → is_Some (status s' !! k)) ∧
  (split (Action.type a) !! 1%nat ≠ Some "RESOURCE" →
   ∀ k, is_Some (status s !! k) → is_Some (status s' !! k)).
Proof.
  intros Hrun.
  assert (∀ k, k ∈ status_keys → is_Some (status initialResourceState !! k)) as Hinit.
  { intros k Hk. unfold status_keys in Hk.
    repeat (apply elem_of_cons in Hk as [->|Hk]; [by eexists|]).
    by apply elem_of_nil in Hk. }
  assert (∀ k d st, is_Some (status s !! k) →
                    is_Some (<[toLowerCase d := st]> (status s) !! k)) as Hins.
  { intros k d st Hk. rewrite lookup_insert. case_decide; [by eexists|done]. }
  apply reducer_cases in Hrun
    as [->|[[Hres ->]|[[Hmeta ->]|[[Hcs [cs ->]]|[(d & st & Hd & Hop & ->)
       |(d & st & Hd & Hop & Hsucc & Hchange & Hstatus)]]]]];
    split_and!; try done; simpl; auto using assign_is_Some.
  - intros Hs k Hk. rewrite Hstatus. auto.
  - intros _ k Hk. rewrite Hstatus. auto.
Qed.

Lemma status_keys_persist_witness :
  Forall (λ k, is_Some (status Sample.updated !! k)) status_keys.
Proof.
  apply Forall_forall.
  destruct (status_keys_persist "USERS" defaultOptions Sample.fetched Sample.updated
              (Sample.action "USERS/UPDATE/SUCCESS" Sample.alice_2) [] eq_refl)
    as (Hinit & Hstep & _).
  apply Hstep.
  destruct (status_keys_persist "USERS" defaultOptions initialResourceState Sample.fetched
              (Sample.action "USERS/FETCH/SUCCESS" (VArr 0 [Sample.alice; Sample.bob])) []
              eq_refl)
    as (_ & Hfetch & _).
  apply Hfetch, Hinit.
Defined.

(** ** Further properties: diagnostics *)

Lemma bind_log {A B} (f : A → M B) (m : M A) :
  (m ≫= f).1 = m.1 ++ match m.2 with inr a => (f a).1 | inl _ => [] end.
Proof.
  destruct m as [w [e|a]]; simpl; [by rewrite app_nil_r|].
  unfold mbind, M_bind. by destruct (f a).
Qed.

Lemma forEach_silent {A B} (f : A → B → M B) (xs : list A) (acc : B) :
  (∀ x acc, (f x acc).1 = []) → (forEach f xs acc).1 = [].
Proof.
  intros Hf. revert acc. induction xs as [|x xs IH]; intros acc; simpl; [done|].
  rewrite bind_log, Hf. simpl. by destruct (f x acc).2.
Qed.

Lemma get_prop_silent (v : value) (k : string) : (get_prop v k).1 = [].
Proof. destruct v; simpl; try done; by case_match. Qed.

Lemma destroy_element_silent (o : Options) (obj : value)
    (store : list value * gmap string value) :
  (destroy_element o obj store).1 = [].
Proof.
  destruct store as [rs es]. unfold destroy_element. rewrite bind_log.
  destruct (is_number_or_string obj); simpl; [done|].
  rewrite get_prop_silent. simpl. by destruct (get_prop obj (idAttribute o)).2.
Qed.

Lemma remove_field_silent (form : string) (field : value)
    (cs : gmap string (gmap string value)) :
  (remove_field form field cs).1 = [].
Proof. unfold remove_field. by repeat case_match. Qed.

Lemma handleChangeset_silent (domain method : option string) (a : Action.t) (s : Resource)
    (o : Options) :
  (handleChangeset domain method a s o).1 = [].
Proof.
  unfold handleChangeset. rewrite bind_log.
  pose proof (changeset_form_cases a) as Hform.
  destruct (strict_eq (Action.meta a) VNull); [by rewrite Hform|].
  destruct Hform as [form ->]. simpl.
  destruct (seg_is method "MERGE"); [done|].
  destruct (seg_is method "REMOVE").
  { rewrite bind_log, forEach_silent by apply remove_field_silent. simpl.
    by destruct (forEach _ _ _).2. }
  by destruct (seg_is method "RESET").
Qed.

(** X21. The reducer emits a diagnostic only while merging entities: a run
    that emitted anything, whether it returned or threw, was a SUCCESS with
    a truthy payload, for this slice, under an operation domain other than
    DESTROY.  Every other action, a destroy included, is silent. *)
Theorem warnings_only_from_update (name : string) (o : Options) (s : Resource) (a : Action.t)
    (w : list string) (r : exn + Resource) :
  reducer name o s a = (w, r) →
  w ≠ [] →
  ∃ d, split (Action.type a) !! 0%nat = Some name ∧
       split (Action.type a) !! 1%nat = Some d ∧
       split (Action.type a) !! 2%nat = Some "SUCCESS" ∧
       operation_domain d ∧ d ≠ "DESTROY" ∧ truthy (Action.payload a) = true.
Proof.
  intros Hrun Hw. assert ((reducer name o s a).1 = w) as Hlog by by rewrite Hrun.
  clear Hrun. revert Hlog. unfold reducer.
  set (name' := split (Action.type a) !! 0%nat).
  set (domain := split (Action.type a) !! 1%nat).
  set (method := split (Action.type a) !! 2%nat).
  assert (domain = None → method = None) as Hdm
    by (subst domain method; by destruct (split (Action.type a)) as [|?[|?[|]]]).
  clearbody name' domain method.
  destruct (seg_is name' name) eqn:Hname; [|by intros <-].
  apply seg_is_true in Hname.
  destruct (seg_is domain "RESOURCE") eqn:Hres; [by intros <-|].
  destruct (seg_is domain "META") eqn:Hmeta; [by intros <-|].
  destruct (seg_is domain "CHANGESET") eqn:Hcs.
  { rewrite handleChangeset_silent. by intros <-. }
  unfold handleResource. rewrite set_status_id.
  destruct domain as [d|]; [|rewrite (Hdm eq_refl); by intros <-].
  assert (operation_domain d) as Hd.
  { apply seg_is_false in Hres, Hmeta, Hcs. repeat split; congruence. }
  destruct (seg_is method "START") eqn:Hstart.
  { unfold handleStart, lower. run. by intros <-. }
  destruct (seg_is method "SUCCESS") eqn:Hsuccess.
  - apply seg_is_true in Hsuccess.
    destruct (truthy (Action.payload a)) eqn:Hp.
    + rewrite (handleSuccess_truthy _ _ _ _ Hp), bind_log.
      destruct (String.eqb_spec d "DESTROY") as [->|Hnd].
      * rewrite forEach_silent by apply destroy_element_silent. simpl.
        destruct (forEach _ _ _).2; by intros <-.
      * intros _. by exists d.
    + unfold handleSuccess. rewrite Hp. by intros <-.
  - destruct (seg_is method "FAILURE").
    { unfold handleFailure, lower. run. by intros <-. }
    destruct (seg_is method "RESET").
    { unfold handleClear, lower. run. by intros <-. }
    by intros <-.
Qed.

Lemma warnings_only_from_update_witness :
  ∃ d, split "USERS/UPDATE/SUCCESS" !! 1%nat = Some d ∧ d ≠ "DESTROY".
Proof.
  destruct (warnings_only_from_update "USERS" defaultOptions Sample.fetched
              (Sample.action "USERS/UPDATE/SUCCESS" Sample.anonymous)
              [missing_id_warning defaultOptions] (inr _) eq_refl)
    as (d & _ & Hd & _ & _ & Hnd & _); [discriminate|].
  by exists d.
Defined.

(** ** Further properties: the action type *)

Lemma split_nonempty (s : string) : split s ≠ [].
Proof.
  destruct s as [|c s]; simpl; [done|].
  destruct (Ascii.eqb c "/"); [done|]. by destruct (split s).
Qed.

Lemma split_no_slash (s : string) : no_slash s = true → split s = [s].
Proof.
  induction s as [|c s IH]; simpl; [done|].
  destruct (Ascii.eqb c "/"); simpl; [done|]. intros Hs. by rewrite (IH Hs).
Qed.

Lemma split_segment (seg s : string) :
  no_slash seg = true → split (seg +:+ "/" +:+ s) = seg :: split s.
Proof.
  induction seg as [|c seg IH]; simpl; [done|].
  destruct (Ascii.eqb c "/"); simpl; [done|]. intros Hs. by rewrite (IH Hs).
Qed.

Lemma split_segments (s : string) : Forall (λ seg, no_slash seg = true) (split s).
Proof.
  induction s as [|c s IH]; simpl; [by repeat constructor|].
  destruct (Ascii.eqb c "/") eqn:Hc; [by constructor|].
  destruct (split s) as [|seg segs]; simpl.
  - repeat constructor. simpl. by rewrite Hc.
  - apply Forall_cons in IH as [Hseg Hsegs]. constructor; [|done]. simpl. by rewrite Hc.
Qed.

(** X22. The action type and its segments.  Splitting a type at its slashes
    gives at least one segment, none of which holds a slash, and joining
    them with slashes gives the type back; conversely the type made of any
    slash-free segments splits into exactly these.  So the type
    [R/D/M] reaches the reducer as the name [R], the domain [D] and the
    method [M]. *)
Theorem split_join_round_trip (s : string) (segments : list string) :
  split s ≠ [] ∧
  Forall (λ seg, no_slash seg = true) (split s) ∧
  join_slash (split s) = s ∧
  (segments ≠ [] → Forall (λ seg, no_slash seg = true) segments →
   split (join_slash segments) = segments).
Proof.
  split_and!.
  - apply split_nonempty.
  - apply split_segments.
  - induction s as [|c s IH]; simpl; [done|].
    pose proof (split_nonempty s) as Hne.
    destruct (Ascii.eqb_spec c "/") as [->|Hc].
    + destruct (split s) as [|seg segs]; [done|].
      change (join_slash ("" :: seg :: segs)) with ("" +:+ "/" +:+ join_slash (seg :: segs)).
      by rewrite IH.
    + destruct (split s) as [|seg segs]; [done|].
      destruct segs; simpl in *; by rewrite <- IH.
  - intros Hne Hsegs. induction Hsegs as [|seg segs Hseg Hsegs IH]; [done|].
    destruct segs as [|seg' segs]; [by apply split_no_slash|].
    cbn [join_slash]. rewrite (split_segment _ _ Hseg). f_equal. by apply IH.
Qed.

Lemma split_join_round_trip_witness :
  split (join_slash ["USERS"; "FETCH"; "SUCCESS"]) = ["USERS"; "FETCH"; "SUCCESS"].
Proof.
  apply (split_join_round_trip "" ["USERS"; "FETCH"; "SUCCESS"]); [done|].
  by repeat constructor.
Defined.

(** X23. Only the first three segments of the type, the payload and the
    meta of an action matter: two actions that agree on these give the same
    result on every state, so that segments after the method are ignored. *)
Theorem only_three_segments_matter (name : string) (o : Options) (s : Resource)
    (a a' : Action.t) :
  take 3 (split (Action.type a)) = take 3 (split (Action.type a')) →
  Action.payload a = Action.payload a' →
  Action.meta a = Action.meta a' →
  reducer name o s a = reducer name o s a'.
Proof.
  destruct a as [t p m], a' as [t' p' m']. simpl. intros Htake <- <-.
  assert (∀ i, (i < 3)%nat → split t !! i = split t' !! i) as Hseg.
  { intros i Hi. by rewrite <- (lookup_take_lt (split t) 3 i), Htake, lookup_take_lt. }
  unfold reducer. cbn [Action.type].
  rewrite (Hseg 0%nat), (Hseg 1%nat), (Hseg 2%nat) by lia.
  reflexivity.
Qed.

Lemma only_three_segments_matter_witness :
  reducer "USERS" defaultOptions Sample.fetched
    (Sample.action "USERS/DESTROY/SUCCESS/now/please" (VNum 1))
  = reducer "USERS" defaultOptions Sample.fetched
      (Sample.action "USERS/DESTROY/SUCCESS" (VNum 1)).
Proof.
  apply (only_three_segments_matter "USERS" defaultOptions Sample.fetched
           (Sample.action "USERS/DESTROY/SUCCESS/now/please" (VNum 1))
           (Sample.action "USERS/DESTROY/SUCCESS" (VNum 1)));
    reflexivity.
Defined.
